(** * Hedera Agent Economy backend: task routing and settlement engine

    A shallow embedding of [src/main.py].  Module-level globals become the
    fields of one [State] record threaded through a state-and-exception
    monad; the wall clock, [uuid.uuid4] and [random.randint] are read from an
    explicit [Env] record, one per handler call.  Python [float]s are IEEE
    binary64 values ([PrimFloat.float]); Python [int]s are [Z]. *)

From Stdlib Require Import ZArith Ascii String PrimFloat FloatOps SpecFloat.
From stdpp Require Import gmap strings list pretty.

Set Warnings "-inexact-float".
Local Open Scope Z_scope.

(** ** Python floats *)

Module PyFloat.

(** [n / d] rounded to the nearest integer, ties to the even one
    ([d] positive). *)
Definition round_half_even_div (n d : Z) : Z :=
  let q := n / d in
  match Z.compare (2 * (n mod d)) d with
  | Lt => q
  | Gt => q + 1
  | Eq => if Z.even q then q else q + 1
  end.

(** The integer nearest to [m * 2^e * 10^4]. *)
Definition scaled4 (m : positive) (e : Z) : Z :=
  match e with
  | Zneg k => round_half_even_div (Zpos m * 10000) (2 ^ Zpos k)
  | _ => Zpos m * 10000 * 2 ^ e
  end.

(** [round(x, 4)]: CPython converts [x] to the correctly rounded decimal
    with four fractional digits and reads that decimal back as the
    nearest binary64 value; zeros, infinities and NaN round to
    themselves. *)
Definition round4 (x : float) : float :=
  match Prim2SF x with
  | S754_finite s m e =>
      match scaled4 m e with
      | Zpos n =>
          SF2Prim (SFdiv prec emax (S754_finite s n 0)
                                   (S754_finite false 10000 0))
      | _ => SF2Prim (S754_zero s)
      end
  | _ => x
  end.

(** [sum(xs)] over floats: left to right, starting from [0]. *)
Definition fsum (xs : list float) : float :=
  fold_left PrimFloat.add xs 0%float.

(** The numbers the specification calls valid budgets: finite and
    non-negative. *)
Definition valid_budget (b : float) : bool :=
  (0 <=? b)%float && (b <? infinity)%float.

End PyFloat.

(** ** Python strings and list slices *)

Module PyStr.

(** Free text is a sequence of Unicode code points, so that slicing counts
    characters as Python does.  Identifiers and task types are only ever
    compared and concatenated and are kept as [string]. *)
Definition text := list N.

Definition lit (s : string) : text :=
  N_of_ascii <$> list_ascii_of_string s.

(** [s[:n]] for a literal [n >= 0]. *)
Definition prefix (n : nat) (t : text) : text := take n t.

Definition str_prefix (n : nat) (s : string) : string := substring 0 n s.

Definition ellipsis : N := 8230%N.
Definition sigma : N := 963%N.

End PyStr.

Module PyList.

(** [xs[start:]]: a negative [start] counts from the end, and the bound is
    clipped to [0 .. len(xs)]. *)
Definition slice_from {A} (start : Z) (xs : list A) : list A :=
  let n := Z.of_nat (length xs) in
  let lo := if start <? 0 then Z.max (start + n) 0 else Z.min start n in
  drop (Z.to_nat lo) xs.

(** [xs[-k:]]. *)
Definition last_slice {A} (k : Z) (xs : list A) : list A :=
  slice_from (- k) xs.

(** [random.randint(a, b)]: an integer of [a .. b], both ends included,
    selected by the raw draw. *)
Definition randint (a b draw : Z) : Z := a + draw mod (b - a + 1).

End PyList.

Import PyFloat PyStr PyList.

(** ** Data model *)

Module Agent.
Record t := mk {
  agent_id : string;
  agent_type : string;
  name : string;
  skills : list string;
  hbar_balance : float;
  tasks_completed : Z;
  earnings_hbar : float;
  status : string;
  registered_at : string;
}.

(** The fields no handler assigns to. *)
Definition frame (a : t) :=
  (agent_id a, name a,
   (agent_type a, skills a, hbar_balance a, status a, registered_at a)).

Definition set_tasks_completed (v : Z) (a : t) : t :=
  mk (agent_id a) (agent_type a) (name a) (skills a) (hbar_balance a)
     v (earnings_hbar a) (status a) (registered_at a).

Definition set_earnings_hbar (v : float) (a : t) : t :=
  mk (agent_id a) (agent_type a) (name a) (skills a) (hbar_balance a)
     (tasks_completed a) v (status a) (registered_at a).
End Agent.

(** Values stored in a message payload. *)
Inductive Value :=
| VStr (s : string)
| VText (s : text)
| VFloat (f : float)
| VList (l : list string).

Module Message.
Record t := mk {
  id : string;
  topic : string;
  sender : string;
  message_type : string;
  payload : gmap string Value;
  consensus_timestamp : string;
  tx_id : string;
}.
End Message.

Module Transaction.
Record t := mk {
  task_id : string;
  worker_id : string;
  amount_hbar : float;
  tx_id : string;
  duration_ms : Z;
  timestamp : Z;
  mock : bool;
}.
End Transaction.

Module TaskRequest.
Record t := mk {
  task_type : string;
  payload : text;
  budget_hbar : float;
}.
End TaskRequest.

Module Receipt.
Record t := mk {
  task_id : string;
  status : string;
  result : text;
  cost_hbar : float;
  duration_ms : Z;
  assigned_to : string;
  tx_id : string;
  hcs_sequence : Z;
}.
End Receipt.

Module Stats.
Record t := mk {
  tasks_completed : Z;
  total_hbar_settled : float;
  active_agents : Z;
  total_agents : Z;
  topics : gmap string string;
}.
End Stats.

Module Snapshot.
Record t := mk {
  agents : list Agent.t;
  messages : list Message.t;
  transactions : list Transaction.t;
  stats : Stats.t;
  timestamp : string;
}.
End Snapshot.

Module DemoResult.
Record t := mk {
  demo : string;
  tasks_executed : Z;
  total_hbar_spent : float;
  results : list Receipt.t;
}.
End DemoResult.

(** The module-level globals. *)
Record State := mkState {
  AGENTS : list Agent.t;
  MESSAGES : list Message.t;
  TRANSACTIONS : list Transaction.t;
  _tasks_completed : Z;
  _total_hbar_settled : float;
}.

(** What one call of [submit_task] reads from outside the program, in the
    order the body reads it. *)
Record Env := mkEnv {
  uuid_task : string;      (* str(uuid.uuid4()) for the task id *)
  draw_mean : Z;           (* random.randint(100, 500) *)
  draw_sigma : Z;          (* random.randint(10, 50) *)
  clock : Z;               (* int(datetime.now(timezone.utc).timestamp()) *)
  draw_duration : Z;       (* random.randint(280, 650) *)
  uuid_msg : string;       (* str(uuid.uuid4()) for the message id *)
  now : string;            (* _now() *)
}.

(** ** Seed data *)

Definition AGENTS_seed : list Agent.t :=
  [ Agent.mk "registry-001" "registry" "Registry Agent"
      ["discover"; "register"; "lookup"] 50.0 142 28.4 "idle"
      "2026-02-24T10:00:00Z";
    Agent.mk "broker-001" "broker" "Broker Agent"
      ["match"; "negotiate"; "route"] 75.2 138 55.1 "busy"
      "2026-02-24T10:00:00Z";
    Agent.mk "worker-summarizer" "worker" "Summarizer Worker"
      ["summarize"; "tldr"; "abstract"] 22.5 89 44.5 "idle"
      "2026-02-24T10:00:00Z";
    Agent.mk "worker-code-reviewer" "worker" "Code Reviewer Worker"
      ["review"; "lint"; "security-scan"] 31.0 67 67.0 "idle"
      "2026-02-24T10:00:00Z";
    Agent.mk "worker-data-analyst" "worker" "Data Analyst Worker"
      ["analyze"; "stats"; "chart"] 18.7 54 40.5 "busy"
      "2026-02-24T10:00:00Z";
    Agent.mk "settlement-001" "settlement" "Settlement Agent"
      ["settle"; "transfer"; "audit"] 200.0 308 15.4 "idle"
      "2026-02-24T10:00:00Z" ].

Definition MESSAGES_seed : list Message.t :=
  [ Message.mk "msg-001" "agent-registry" "registry-001" "agent_registered"
      {[ "agent_id" := VStr "worker-summarizer";
         "skills" := VList ["summarize"; "tldr"] ]}
      "2026-02-24T10:00:00Z" "0.0.5483526@1708765200.000000000";
    Message.mk "msg-002" "task-negotiation" "broker-001" "task_assigned"
      {[ "task_id" := VStr "task-abc";
         "worker" := VStr "worker-summarizer";
         "budget_hbar" := VFloat 0.5 ]}
      "2026-02-24T10:01:00Z" "0.0.5483526@1708765260.000000000";
    Message.mk "msg-003" "settlement" "settlement-001" "payment_settled"
      {[ "task_id" := VStr "task-abc";
         "amount_hbar" := VFloat 0.5;
         "tx_id" := VStr "0.0.5483526@1708765200.000000000" ]}
      "2026-02-24T10:02:00Z" "0.0.5483526@1708765320.000000000" ].

Definition TRANSACTIONS_seed : list Transaction.t :=
  [ Transaction.mk "task-abc" "worker-summarizer" 0.5
      "0.0.5483526@1708765200.000000000" 312 1708765200 true;
    Transaction.mk "task-def" "worker-code-reviewer" 1.0
      "0.0.5483526@1708765260.000000000" 428 1708765260 true;
    Transaction.mk "task-ghi" "worker-data-analyst" 0.75
      "0.0.5483526@1708765320.000000000" 389 1708765320 true ].

Definition HCS_TOPICS : gmap string string :=
  {[ "agent-registry" := "0.0.5483527";
     "task-negotiation" := "0.0.5483528";
     "settlement" := "0.0.5483529" ]}.

(** [sum(...)] over integers. *)
Definition zsum (xs : list Z) : Z := fold_left Z.add xs 0.

Definition init_state : State :=
  mkState AGENTS_seed MESSAGES_seed TRANSACTIONS_seed
    (zsum (Agent.tasks_completed <$> AGENTS_seed))
    (fsum (Transaction.amount_hbar <$> TRANSACTIONS_seed)).

(** ** Handlers as state transformers that may raise *)

Inductive Error := IndexError.

Inductive result (A : Type) :=
| Ok (a : A)
| Raise (e : Error).
Arguments Ok {A} a.
Arguments Raise {A} e.

Definition M (A : Type) : Type := State -> result (A * State).

#[global] Instance M_ret : MRet M := fun A a st => Ok (a, st).
#[global] Instance M_bind : MBind M := fun A B f m st =>
  match m st with
  | Ok (a, st') => f a st'
  | Raise e => Raise e
  end.

Definition gets {A} (f : State -> A) : M A := fun st => Ok (f st, st).
Definition modify (f : State -> State) : M unit := fun st => Ok (tt, f st).
Definition raise {A} (e : Error) : M A := fun _ => Raise e.

(** [xs[i]] for a literal [i >= 0]. *)
Definition index {A} (xs : list A) (i : nat) : M A :=
  match xs !! i with
  | Some x => mret x
  | None => raise IndexError
  end.

Definition set_AGENTS (f : list Agent.t -> list Agent.t) (st : State) :=
  mkState (f (AGENTS st)) (MESSAGES st) (TRANSACTIONS st)
          (_tasks_completed st) (_total_hbar_settled st).
Definition set_MESSAGES (f : list Message.t -> list Message.t) (st : State) :=
  mkState (AGENTS st) (f (MESSAGES st)) (TRANSACTIONS st)
          (_tasks_completed st) (_total_hbar_settled st).
Definition set_TRANSACTIONS
    (f : list Transaction.t -> list Transaction.t) (st : State) :=
  mkState (AGENTS st) (MESSAGES st) (f (TRANSACTIONS st))
          (_tasks_completed st) (_total_hbar_settled st).
Definition set_tasks_completed (f : Z -> Z) (st : State) :=
  mkState (AGENTS st) (MESSAGES st) (TRANSACTIONS st)
          (f (_tasks_completed st)) (_total_hbar_settled st).
Definition set_total_hbar_settled (f : float -> float) (st : State) :=
  mkState (AGENTS st) (MESSAGES st) (TRANSACTIONS st)
          (_tasks_completed st) (f (_total_hbar_settled st)).

(** [d.get(k, dflt)]. *)
Definition dict_get {V} (d : gmap string V) (k : string) (dflt : V) : V :=
  default dflt (d !! k).

(** *** Task submission *)

Definition skill_map : gmap string string :=
  {[ "summarize" := "worker-summarizer";
     "tldr" := "worker-summarizer";
     "abstract" := "worker-summarizer";
     "review" := "worker-code-reviewer";
     "lint" := "worker-code-reviewer";
     "security-scan" := "worker-code-reviewer";
     "analyze" := "worker-data-analyst";
     "stats" := "worker-data-analyst";
     "chart" := "worker-data-analyst" ]}.

(** The skill router: [skill_map.get(req.task_type, "worker-summarizer")]. *)
Definition assigned_worker_id (task_type : string) : string :=
  dict_get skill_map task_type "worker-summarizer".

(** The dict literal is built, all three entries, on every call. *)
Definition result_map (env : Env) (payload : text) : gmap string text :=
  {[ "summarize" :=
       lit "Summary: " ++ prefix 120 payload ++ [ellipsis] ++
       lit " [AI condensed to 3 key points via HCS-verified consensus]";
     "review" :=
       lit "Code Review: 0 critical issues detected. 2 style suggestions. Reentrancy pattern flagged for: "
       ++ prefix 80 payload;
     "analyze" :=
       lit "Analysis complete: Dataset shows upward trend. Mean=" ++
       lit (pretty (randint 100 500 (draw_mean env))) ++ lit ", " ++
       [sigma] ++ lit "=" ++
       lit (pretty (randint 10 50 (draw_sigma env))) ++
       lit ". Confidence: 94%" ]}.

Definition result_text (env : Env) (req : TaskRequest.t) : text :=
  dict_get (result_map env (TaskRequest.payload req))
    (TaskRequest.task_type req)
    (lit "Task completed: " ++ prefix 100 (TaskRequest.payload req)).

Definition tx_id_of (ts : Z) : string :=
  "0.0.5483526@" +:+ pretty ts +:+ ".000000000".

(** The position in [AGENTS] of the dict that [worker] is bound to: the
    first agent with the assigned id, else [AGENTS[2]]. *)
Definition worker_ref (agents : list Agent.t) (wid : string) : nat :=
  match list_find (fun a => Agent.agent_id a = wid) agents with
  | Some (i, _) => i
  | None => 2%nat
  end.

Definition submit_task (env : Env) (req : TaskRequest.t) : M Receipt.t :=
  let task_id := "task-" +:+ str_prefix 8 (uuid_task env) in
  let wid := assigned_worker_id (TaskRequest.task_type req) in
  agents ← gets AGENTS;
  _ ← index agents 2;
  let worker := worker_ref agents wid in
  let text := result_text env req in
  let ts := clock env in
  let tx_id := tx_id_of ts in
  let duration_ms := randint 280 650 (draw_duration env) in
  let budget := TaskRequest.budget_hbar req in
  _ ← modify (set_tasks_completed (fun n => n + 1));
  _ ← modify (set_total_hbar_settled (fun v => round4 (v + budget)%float));
  _ ← modify (set_AGENTS (alter
         (fun a => Agent.set_tasks_completed (Agent.tasks_completed a + 1) a)
         worker));
  _ ← modify (set_AGENTS (alter
         (fun a => Agent.set_earnings_hbar
                     (round4 (Agent.earnings_hbar a + budget)%float) a)
         worker));
  _ ← modify (set_TRANSACTIONS (fun l => l ++
         [Transaction.mk task_id wid budget tx_id duration_ms ts true]));
  _ ← modify (set_MESSAGES (fun l => l ++
         [Message.mk ("msg-" +:+ str_prefix 6 (uuid_msg env))
            "task-negotiation" "broker-001" "task_completed"
            {[ "task_id" := VStr task_id;
               "worker" := VStr wid;
               "result" := VText (prefix 80 text) ]}
            (now env) tx_id]));
  agents' ← gets AGENTS;
  w ← index agents' worker;
  msgs ← gets MESSAGES;
  mret (Receipt.mk task_id "completed" text budget duration_ms
          (Agent.name w) tx_id (1000 + Z.of_nat (length msgs))).

(** *** The demo cycle *)

Definition demo_tasks : list TaskRequest.t :=
  [ TaskRequest.mk "summarize"
      (lit "Summarize the Hedera whitepaper key points on hashgraph consensus")
      0.5;
    TaskRequest.mk "review"
      (lit "Review this Solidity contract for reentrancy vulnerabilities")
      1.0;
    TaskRequest.mk "analyze"
      (lit "Analyze daily active users trend: [120,145,132,178,201,189,224]")
      0.75 ].

(** [[submit_task(task) for task in tasks]]; the [k]-th call reads
    [env k]. *)
Fixpoint submit_each (env : nat -> Env) (k : nat) (tasks : list TaskRequest.t)
  : M (list Receipt.t) :=
  match tasks with
  | [] => mret []
  | task :: rest =>
      r ← submit_task (env k) task;
      rs ← submit_each env (S k) rest;
      mret (r :: rs)
  end.

Definition run_demo (env : nat -> Env) : M DemoResult.t :=
  results ← submit_each env 0 demo_tasks;
  mret (DemoResult.mk "complete" (Z.of_nat (length results))
          (fsum (Receipt.cost_hbar <$> results)) results).

(** *** Read-only handlers *)

Definition _economy_snapshot (now : string) : M Snapshot.t :=
  agents ← gets AGENTS;
  let active :=
    Z.of_nat (length (filter (fun a => Agent.status a = "busy") agents)) in
  msgs ← gets MESSAGES;
  txns ← gets TRANSACTIONS;
  completed ← gets _tasks_completed;
  settled ← gets _total_hbar_settled;
  agents' ← gets AGENTS;
  mret (Snapshot.mk agents (last_slice 50 msgs) (last_slice 20 txns)
          (Stats.mk completed (round4 settled) active
             (Z.of_nat (length agents')) HCS_TOPICS)
          now).

Definition get_state (now : string) : M Snapshot.t := _economy_snapshot now.

Definition list_agents : M (list Agent.t * Z) :=
  agents ← gets AGENTS;
  mret (agents, Z.of_nat (length agents)).

(** The pair is the response's [messages] and [total]. *)
Definition get_messages (limit : Z) : M (list Message.t * Z) :=
  all ← gets MESSAGES;
  let msgs := last_slice limit all in
  mret (msgs, Z.of_nat (length all)).

(** The pair is the response's [transactions] and [total]. *)
Definition get_transactions (limit : Z) : M (list Transaction.t * Z) :=
  all ← gets TRANSACTIONS;
  let txns := last_slice limit all in
  mret (txns, Z.of_nat (length all)).

Module LegacyStats.
Record t := mk {
  total_agents : Z;
  total_tasks : Z;
  completed_tasks : Z;
  pending_tasks : Z;
  failed_tasks : Z;
  total_hbar_settled : float;
  hcs_messages : Z;
  topic_id : string;
  demo_mode : bool;
}.
End LegacyStats.

Definition get_stats (now : string) : M LegacyStats.t :=
  snap ← _economy_snapshot now;
  let s := Snapshot.stats snap in
  msgs ← gets MESSAGES;
  mret (LegacyStats.mk (Stats.total_agents s) (Stats.tasks_completed s)
          (Stats.tasks_completed s) 0 0 (Stats.total_hbar_settled s)
          (Z.of_nat (length msgs)) "0.0.demo" true).

(** The triple is the response's [messages], [topic_id] and [count]. *)
Definition get_feed (limit : Z) : M (list Message.t * string * Z) :=
  all ← gets MESSAGES;
  mret (last_slice limit all, "0.0.demo", Z.of_nat (length all)).

Module Health.
Record t := mk {
  status : string;
  hedera_network : string;
  topic_id : string;
  agents_registered : Z;
  demo_mode : bool;
  ai_enabled : bool;
  timestamp : string;
}.
End Health.

(** [network] is [os.getenv("HEDERA_NETWORK", "testnet")]. *)
Definition health (network now : string) : M Health.t :=
  agents ← gets AGENTS;
  mret (Health.mk "ok" network "0.0.demo" (Z.of_nat (length agents))
          true false now).

(** *** The operations of the service and the states they reach *)

Inductive Op :=
| OpHealth (network now : string)
| OpState (now : string)
| OpAgents
| OpMessages (limit : Z)
| OpTransactions (limit : Z)
| OpStats (now : string)
| OpFeed (limit : Z)
| OpSubmit (env : Env) (req : TaskRequest.t)
| OpDemo (env : nat -> Env).

Definition after {A} (m : M A) (st : State) : result State :=
  match m st with
  | Ok (_, st') => Ok st'
  | Raise e => Raise e
  end.

Definition exec (op : Op) : State -> result State :=
  match op with
  | OpHealth network now => after (health network now)
  | OpState now => after (get_state now)
  | OpAgents => after list_agents
  | OpMessages limit => after (get_messages limit)
  | OpTransactions limit => after (get_transactions limit)
  | OpStats now => after (get_stats now)
  | OpFeed limit => after (get_feed limit)
  | OpSubmit env req => after (submit_task env req)
  | OpDemo env => after (run_demo env)
  end.

Inductive reachable : State -> Prop :=
| reach_init : reachable init_state
| reach_step op st st' :
    reachable st -> exec op st = Ok st' -> reachable st'.

(** Submissions one after the other, each with its own environment. *)
Fixpoint submit_all (calls : list (Env * TaskRequest.t))
  : M (list Receipt.t) :=
  match calls with
  | [] => mret []
  | (env, req) :: rest =>
      r ← submit_task env req;
      rs ← submit_all rest;
      mret (r :: rs)
  end.

(** ** Vocabulary of the statements *)

(** The transaction record a submission appends. *)
Definition submitted_transaction (env : Env) (req : TaskRequest.t)
  : Transaction.t :=
  Transaction.mk ("task-" +:+ str_prefix 8 (uuid_task env))
    (assigned_worker_id (TaskRequest.task_type req))
    (TaskRequest.budget_hbar req) (tx_id_of (clock env))
    (randint 280 650 (draw_duration env)) (clock env) true.

(** The message record a submission appends. *)
Definition submitted_message (env : Env) (req : TaskRequest.t) : Message.t :=
  Message.mk ("msg-" +:+ str_prefix 6 (uuid_msg env))
    "task-negotiation" "broker-001" "task_completed"
    {[ "task_id" := VStr ("task-" +:+ str_prefix 8 (uuid_task env));
       "worker" := VStr (assigned_worker_id (TaskRequest.task_type req));
       "result" := VText (prefix 80 (result_text env req)) ]}
    (now env) (tx_id_of (clock env)).

(** The two assignments to the worker's record, in the order of the body. *)
Definition credit (budget : float) (a : Agent.t) : Agent.t :=
  Agent.set_earnings_hbar (round4 (Agent.earnings_hbar a + budget)%float)
    (Agent.set_tasks_completed (Agent.tasks_completed a + 1) a).

(** The globals after one submission. *)
Definition submitted_state (env : Env) (req : TaskRequest.t) (st : State)
  : State :=
  mkState
    (alter (credit (TaskRequest.budget_hbar req))
       (worker_ref (AGENTS st)
          (assigned_worker_id (TaskRequest.task_type req)))
       (AGENTS st))
    (MESSAGES st ++ [submitted_message env req])
    (TRANSACTIONS st ++ [submitted_transaction env req])
    (_tasks_completed st + 1)
    (round4 (_total_hbar_settled st + TaskRequest.budget_hbar req)%float).

(** The receipt of one submission, [a] being the record [worker] is bound
    to. *)
Definition submitted_receipt (env : Env) (req : TaskRequest.t) (st : State)
    (a : Agent.t) : Receipt.t :=
  Receipt.mk ("task-" +:+ str_prefix 8 (uuid_task env)) "completed"
    (result_text env req) (TaskRequest.budget_hbar req)
    (randint 280 650 (draw_duration env)) (Agent.name a)
    (tx_id_of (clock env))
    (1000 + Z.of_nat (length (MESSAGES st ++ [submitted_message env req]))).

(** The state after the given submissions, oldest first. *)
Definition settle (calls : list (Env * TaskRequest.t)) (st : State) : State :=
  foldl (fun st c => submitted_state c.1 c.2 st) st calls.

(** The submissions an operation performs. *)
Definition op_calls (op : Op) : list (Env * TaskRequest.t) :=
  match op with
  | OpSubmit env req => [(env, req)]
  | OpDemo env => imap (fun k task => (env k, task)) demo_tasks
  | _ => []
  end.

(** Agent [i] after the given submissions: credited once for each
    submission routed to position [i]. *)
Definition credited (agents : list Agent.t)
    (calls : list (Env * TaskRequest.t)) (i : nat) (a : Agent.t) : Agent.t :=
  foldl (fun a c =>
           if decide (worker_ref agents
                        (assigned_worker_id (TaskRequest.task_type c.2)) = i)
           then credit (TaskRequest.budget_hbar c.2) a else a)
        a calls.

(** The reading under which the limit is clamped at zero: the response holds
    the last [min K (max limit 0)] entries of the log of length [K]. *)
Definition recent_messages_clamped (limit : Z) (st : State) : Prop :=
  exists msgs total,
    get_messages limit st = Ok ((msgs, total), st) /\
    msgs `suffix_of` MESSAGES st /\
    Z.of_nat (length msgs) =
    Z.min (Z.of_nat (length (MESSAGES st))) (Z.max limit 0).

(** The same reading for the transaction log. *)
Definition recent_transactions_clamped (limit : Z) (st : State) : Prop :=
  exists txns total,
    get_transactions limit st = Ok ((txns, total), st) /\
    txns `suffix_of` TRANSACTIONS st /\
    Z.of_nat (length txns) =
    Z.min (Z.of_nat (length (TRANSACTIONS st))) (Z.max limit 0).

(** Sample inputs: the environments of two calls made within one second,
    and requests with a regular, a negative and a tiny budget. *)
Definition env_a : Env :=
  mkEnv "3f2b8c1e-5d4a-4e0b-9c7f-0a1b2c3d4e5f" 217 31 1783000000 45
        "9a8b7c6d-1e2f-4a3b-8c4d-5e6f7a8b9c0d" "2026-07-02T13:46:40.120000+00:00".
Definition env_b : Env :=
  mkEnv "c0ffee12-7a6b-4c5d-8e9f-112233445566" 5 12 1783000000 300
        "0badf00d-aaaa-4bbb-8ccc-ddddeeeeffff" "2026-07-02T13:46:40.870000+00:00".

Definition req_fox : TaskRequest.t :=
  TaskRequest.mk "summarize" (lit "The quick brown fox") 0.5.
Definition req_negative : TaskRequest.t :=
  TaskRequest.mk "summarize" (lit "The quick brown fox") (-1.0).
Definition req_tiny : TaskRequest.t :=
  TaskRequest.mk "summarize" (lit "The quick brown fox") 0x1p-15.

(** A registry cut down to its first three agents, in which no agent has
    the id ["worker-code-reviewer"], and a review request. *)
Definition st_three_agents : State :=
  mkState (take 3 AGENTS_seed) MESSAGES_seed TRANSACTIONS_seed 369 2.25.
Definition req_review : TaskRequest.t :=
  TaskRequest.mk "review" (lit "contract C { }") 1.0.
Definition req_tldr : TaskRequest.t :=
  TaskRequest.mk "tldr" (lit "The quick brown fox") 0.5.

(** The message-log length that fixes a receipt's sequence number. *)
Definition hcs_sequence_after (logged : nat) : Z := 1000 + Z.of_nat logged.

(** The agent fields a record shares with its frame. *)
Definition same_identity (a a' : Agent.t) : Prop :=
  Agent.agent_id a' = Agent.agent_id a /\
  Agent.agent_type a' = Agent.agent_type a /\
  Agent.name a' = Agent.name a /\
  Agent.skills a' = Agent.skills a /\
  Agent.hbar_balance a' = Agent.hbar_balance a /\
  Agent.status a' = Agent.status a /\
  Agent.registered_at a' = Agent.registered_at a.

(** The ids of the three worker agents. *)
Definition worker_ids : list string :=
  ["worker-summarizer"; "worker-code-reviewer"; "worker-data-analyst"].

(** [a'] is [a] after one submission of the given budget was credited to
    it. *)
Definition credited_once (budget : float) (a a' : Agent.t) : Prop :=
  same_identity a a' /\
  Agent.tasks_completed a' = Agent.tasks_completed a + 1 /\
  Agent.earnings_hbar a' = round4 (Agent.earnings_hbar a + budget)%float.

(** ** Python slices *)

Section slices.
Context {A : Type}.
Implicit Types xs : list A.

Lemma last_slice_pos (k : Z) xs :
  0 < k -> last_slice k xs = drop (length xs - Z.to_nat k) xs.
Proof.
  intros Hk. unfold last_slice, slice_from.
  destruct (Z.ltb_spec (- k) 0) as [_|]; [|lia].
  f_equal. lia.
Qed.

(** [xs[-0:]] is [xs[0:]]: the whole list. *)
Lemma last_slice_zero xs : last_slice 0 xs = xs.
Proof.
  unfold last_slice, slice_from.
  destruct (Z.ltb_spec (- 0) 0) as [|_]; [lia|].
  replace (Z.to_nat _) with 0%nat by lia. reflexivity.
Qed.

(** A negative [k] makes [-k] a positive start: the first [-k] entries are
    dropped. *)
Lemma last_slice_neg (k : Z) xs :
  k < 0 -> last_slice k xs = drop (Z.to_nat (- k)) xs.
Proof.
  intros Hk. unfold last_slice, slice_from.
  destruct (Z.ltb_spec (- k) 0) as [|_]; [lia|].
  destruct (Z.le_gt_cases (- k) (Z.of_nat (length xs))).
  - f_equal. lia.
  - rewrite !drop_ge by lia. reflexivity.
Qed.

Lemma last_slice_suffix (k : Z) xs : last_slice k xs `suffix_of` xs.
Proof. unfold last_slice, slice_from. apply suffix_drop. Qed.

Lemma last_slice_pos_length (k : Z) xs :
  0 < k ->
  Z.of_nat (length (last_slice k xs)) = Z.min (Z.of_nat (length xs)) k.
Proof. intros Hk. rewrite last_slice_pos, length_drop by done. lia. Qed.

Lemma last_slice_all (k : Z) xs :
  Z.of_nat (length xs) <= k -> last_slice k xs = xs.
Proof.
  intros Hk. destruct (Z.eq_dec k 0) as [->|].
  - apply last_slice_zero.
  - rewrite last_slice_pos by lia.
    replace (length xs - Z.to_nat k)%nat with 0%nat by lia. reflexivity.
Qed.
End slices.

(** ** Running the handlers *)

Lemma get_messages_run (limit : Z) (st : State) :
  get_messages limit st =
  Ok ((last_slice limit (MESSAGES st), Z.of_nat (length (MESSAGES st))), st).
Proof. reflexivity. Qed.

Lemma get_transactions_run (limit : Z) (st : State) :
  get_transactions limit st =
  Ok ((last_slice limit (TRANSACTIONS st),
       Z.of_nat (length (TRANSACTIONS st))), st).
Proof. reflexivity. Qed.

Lemma _economy_snapshot_run (now : string) (st : State) :
  _economy_snapshot now st =
  Ok (Snapshot.mk (AGENTS st) (last_slice 50 (MESSAGES st))
        (last_slice 20 (TRANSACTIONS st))
        (Stats.mk (_tasks_completed st) (round4 (_total_hbar_settled st))
           (Z.of_nat (length (filter (fun a => Agent.status a = "busy")
                                     (AGENTS st))))
           (Z.of_nat (length (AGENTS st))) HCS_TOPICS)
        now, st).
Proof. reflexivity. Qed.

Lemma worker_ref_lt (agents : list Agent.t) (wid : string) :
  (2 < length agents)%nat -> (worker_ref agents wid < length agents)%nat.
Proof.
  intros Hlen. unfold worker_ref.
  destruct (list_find _ agents) as [[i a]|] eqn:Hfind; [|done].
  apply list_find_Some in Hfind as (Hi & _). by eapply lookup_lt_Some.
Qed.

Lemma alter_alter_credit (budget : float) (i : nat) (l : list Agent.t) :
  alter (fun a => Agent.set_earnings_hbar
                    (round4 (Agent.earnings_hbar a + budget)%float) a) i
    (alter (fun a => Agent.set_tasks_completed (Agent.tasks_completed a + 1) a)
       i l)
  = alter (credit budget) i l.
Proof.
  revert i. induction l as [|a l IH]; intros [|i]; try done.
  csimpl. f_equal. apply IH.
Qed.

Lemma submit_task_run (env : Env) (req : TaskRequest.t) (st : State) :
  (2 < length (AGENTS st))%nat ->
  exists a,
    AGENTS st !! worker_ref (AGENTS st)
                   (assigned_worker_id (TaskRequest.task_type req)) = Some a /\
    submit_task env req st =
    Ok (submitted_receipt env req st a, submitted_state env req st).
Proof.
  intros Hlen.
  destruct (lookup_lt_is_Some_2 (AGENTS st) 2 Hlen) as [a2 Ha2].
  pose proof (worker_ref_lt (AGENTS st)
                (assigned_worker_id (TaskRequest.task_type req)) Hlen) as Hw.
  destruct (lookup_lt_is_Some_2 _ _ Hw) as [a Ha].
  exists a. split; [done|].
  unfold submit_task, mbind, M_bind, gets, modify, index, mret, M_ret.
  cbn [AGENTS MESSAGES TRANSACTIONS _tasks_completed _total_hbar_settled
       set_AGENTS set_MESSAGES set_TRANSACTIONS set_tasks_completed
       set_total_hbar_settled].
  rewrite Ha2. cbn [AGENTS MESSAGES].
  rewrite alter_alter_credit, list_lookup_alter_eq, Ha.
  cbn [fmap option_fmap option_map].
  unfold set_MESSAGES, set_TRANSACTIONS, set_AGENTS, set_total_hbar_settled,
    set_tasks_completed.
  cbn [AGENTS MESSAGES TRANSACTIONS _tasks_completed _total_hbar_settled].
  rewrite alter_alter_credit. reflexivity.
Qed.

Lemma submit_task_raises (env : Env) (req : TaskRequest.t) (st : State) :
  (length (AGENTS st) <= 2)%nat -> submit_task env req st = Raise IndexError.
Proof.
  intros Hlen.
  unfold submit_task, mbind, M_bind, gets, index.
  cbn [AGENTS]. by rewrite (lookup_ge_None_2 (AGENTS st) 2 Hlen).
Qed.

(** ** Sequences of submissions *)

Lemma submitted_state_length (env : Env) (req : TaskRequest.t) (st : State) :
  length (AGENTS (submitted_state env req st)) = length (AGENTS st).
Proof. apply length_alter. Qed.

Lemma settle_cons (c : Env * TaskRequest.t)
    (calls : list (Env * TaskRequest.t)) (st : State) :
  settle (c :: calls) st = settle calls (submitted_state c.1 c.2 st).
Proof. reflexivity. Qed.

Lemma settle_length (calls : list (Env * TaskRequest.t)) (st : State) :
  length (AGENTS (settle calls st)) = length (AGENTS st).
Proof.
  revert st. induction calls as [|c calls IH]; intros st; [done|].
  by rewrite settle_cons, IH, submitted_state_length.
Qed.

Lemma submit_all_run (calls : list (Env * TaskRequest.t)) (st : State) :
  (2 < length (AGENTS st))%nat ->
  exists rs,
    submit_all calls st = Ok (rs, settle calls st) /\
    Forall2 (fun c r =>
               Receipt.status r = "completed" /\
               Receipt.cost_hbar r = TaskRequest.budget_hbar c.2) calls rs.
Proof.
  revert st. induction calls as [|[env req] calls IH]; intros st Hlen.
  - exists []. split; [reflexivity | constructor].
  - destruct (submit_task_run env req st Hlen) as (a & _ & Hrun).
    destruct (IH (submitted_state env req st)) as (rs & Hrs & Hall).
    { by rewrite submitted_state_length. }
    exists (submitted_receipt env req st a :: rs). split.
    + cbn [submit_all]. unfold mbind, M_bind at 1. rewrite Hrun.
      unfold mbind, M_bind at 1. rewrite Hrs. reflexivity.
    + constructor; [by split | done].
Qed.

Lemma submit_all_raises (c : Env * TaskRequest.t)
    (calls : list (Env * TaskRequest.t)) (st : State) :
  (length (AGENTS st) <= 2)%nat -> submit_all (c :: calls) st = Raise IndexError.
Proof.
  intros Hlen. destruct c as [env req]. cbn [submit_all].
  unfold mbind, M_bind at 1. by rewrite submit_task_raises.
Qed.

Lemma submit_each_all (env : nat -> Env) (k : nat) (tasks : list TaskRequest.t) :
  submit_each env k tasks =
  submit_all (imap (fun i task => (env (k + i)%nat, task)) tasks).
Proof.
  revert k. induction tasks as [|task tasks IH]; intros k; [done|].
  cbn [submit_each imap submit_all]. rewrite IH, Nat.add_0_r.
  assert (imap (fun i task => (env (S k + i)%nat, task)) tasks =
          imap ((fun i task => (env (k + i)%nat, task)) ∘ S) tasks) as ->.
  { apply imap_ext. intros i x _. cbn. do 2 f_equal. lia. }
  reflexivity.
Qed.

Lemma run_demo_run (env : nat -> Env) (st : State) :
  (2 < length (AGENTS st))%nat ->
  exists rs,
    run_demo env st =
    Ok (DemoResult.mk "complete" (Z.of_nat (length rs))
          (fsum (Receipt.cost_hbar <$> rs)) rs,
        settle (op_calls (OpDemo env)) st) /\
    Forall2 (fun c r =>
               Receipt.status r = "completed" /\
               Receipt.cost_hbar r = TaskRequest.budget_hbar c.2)
      (op_calls (OpDemo env)) rs.
Proof.
  intros Hlen.
  destruct (submit_all_run (op_calls (OpDemo env)) st Hlen) as (rs & Hrs & Hall).
  exists rs. split; [|done].
  unfold run_demo, mbind, M_bind. rewrite submit_each_all.
  change (imap _ demo_tasks) with (op_calls (OpDemo env)).
  rewrite Hrs. reflexivity.
Qed.

(** Every operation either raises or leaves the state its submissions
    settle to; the read-only handlers perform none. *)
Lemma exec_settle (op : Op) (st st' : State) :
  exec op st = Ok st' -> st' = settle (op_calls op) st.
Proof.
  destruct op as [network now|now| |limit|limit|now|limit|env req|env];
    try (intros [= <-]; reflexivity).
  - cbn [exec op_calls]. unfold after.
    destruct (decide (2 < length (AGENTS st))%nat) as [Hlen|Hlen].
    + destruct (submit_task_run env req st Hlen) as (a & _ & ->).
      by intros [= <-].
    + rewrite submit_task_raises by lia. done.
  - cbn [exec]. unfold after.
    destruct (decide (2 < length (AGENTS st))%nat) as [Hlen|Hlen].
    + destruct (run_demo_run env st Hlen) as (rs & -> & _). by intros [= <-].
    + unfold run_demo, mbind, M_bind. rewrite submit_each_all.
      cbn [demo_tasks imap]. rewrite submit_all_raises by lia. done.
Qed.

Lemma exec_submission_ok (op : Op) (st st' : State) :
  exec op st = Ok st' -> op_calls op <> [] -> (2 < length (AGENTS st))%nat.
Proof.
  intros Hexec Hcalls.
  destruct (decide (2 < length (AGENTS st))%nat) as [|Hlen]; [done|].
  destruct op; try done.
  - cbn [exec] in Hexec. unfold after in Hexec. by rewrite submit_task_raises in Hexec by lia.
  - cbn [exec] in Hexec. unfold after, run_demo, mbind, M_bind in Hexec.
    rewrite submit_each_all in Hexec. cbn [demo_tasks imap] in Hexec.
    by rewrite submit_all_raises in Hexec by lia.
Qed.

(** ** What a sequence of submissions does to each part of the state *)

Section settle_facts.
Implicit Types (calls : list (Env * TaskRequest.t)) (st : State).

Lemma settle_tasks_completed calls st :
  _tasks_completed (settle calls st) =
  _tasks_completed st + Z.of_nat (length calls).
Proof.
  revert st. induction calls as [|c calls IH]; intros st.
  - cbn. lia.
  - rewrite settle_cons, IH. cbn [submitted_state _tasks_completed length].
    lia.
Qed.

Lemma settle_total_hbar_settled calls st :
  _total_hbar_settled (settle calls st) =
  foldl (fun acc c => round4 (acc + TaskRequest.budget_hbar c.2)%float)
        (_total_hbar_settled st) calls.
Proof.
  revert st. induction calls as [|c calls IH]; intros st; [done|].
  by rewrite settle_cons, IH.
Qed.

Lemma settle_TRANSACTIONS calls st :
  TRANSACTIONS (settle calls st) =
  TRANSACTIONS st ++ ((fun c => submitted_transaction c.1 c.2) <$> calls).
Proof.
  revert st. induction calls as [|c calls IH]; intros st.
  - cbn. by rewrite app_nil_r.
  - rewrite settle_cons, IH. cbn [submitted_state TRANSACTIONS].
    by rewrite <- app_assoc.
Qed.

Lemma settle_MESSAGES calls st :
  MESSAGES (settle calls st) =
  MESSAGES st ++ ((fun c => submitted_message c.1 c.2) <$> calls).
Proof.
  revert st. induction calls as [|c calls IH]; intros st.
  - cbn. by rewrite app_nil_r.
  - rewrite settle_cons, IH. cbn [submitted_state MESSAGES].
    by rewrite <- app_assoc.
Qed.

Lemma submitted_state_frame env req st :
  Agent.frame <$> AGENTS (submitted_state env req st) =
  Agent.frame <$> AGENTS st.
Proof.
  cbn [submitted_state AGENTS].
  rewrite (list_fmap_alter Agent.frame _ id).
  - by apply list_alter_id.
  - by apply Forall_true.
Qed.

Lemma settle_frame calls st :
  Agent.frame <$> AGENTS (settle calls st) = Agent.frame <$> AGENTS st.
Proof.
  revert st. induction calls as [|c calls IH]; intros st; [done|].
  by rewrite settle_cons, IH, submitted_state_frame.
Qed.

Lemma frame_agent_id (l l' : list Agent.t) :
  Agent.frame <$> l = Agent.frame <$> l' ->
  Agent.agent_id <$> l = Agent.agent_id <$> l'.
Proof.
  intros H. apply (f_equal (fmap (fun fr => fr.1.1))) in H.
  by rewrite <- !list_fmap_compose in H.
Qed.

(** [worker_ref] looks at the ids only. *)
Lemma worker_ref_ids (l : list Agent.t) (wid : string) :
  worker_ref l wid =
  match list_find (fun i => i = wid) (Agent.agent_id <$> l) with
  | Some (i, _) => i
  | None => 2%nat
  end.
Proof.
  unfold worker_ref. rewrite list_find_fmap.
  by destruct (list_find _ l) as [[i a]|].
Qed.

Lemma worker_ref_frame (l l' : list Agent.t) (wid : string) :
  Agent.frame <$> l = Agent.frame <$> l' ->
  worker_ref l wid = worker_ref l' wid.
Proof.
  intros H. by rewrite !worker_ref_ids, (frame_agent_id _ _ H).
Qed.

Lemma credited_cons agents c calls i a :
  credited agents (c :: calls) i a =
  credited agents calls i
    (if decide (worker_ref agents
                  (assigned_worker_id (TaskRequest.task_type c.2)) = i)
     then credit (TaskRequest.budget_hbar c.2) a else a).
Proof. reflexivity. Qed.

Lemma credited_frame (l l' : list Agent.t) calls i a :
  Agent.frame <$> l = Agent.frame <$> l' ->
  credited l calls i a = credited l' calls i a.
Proof.
  intros H. revert a. induction calls as [|c calls IH]; intros a; [done|].
  cbn [credited foldl]. rewrite (worker_ref_frame _ _ _ H). apply IH.
Qed.

Lemma settle_lookup calls st i :
  AGENTS (settle calls st) !! i =
  credited (AGENTS st) calls i <$> AGENTS st !! i.
Proof.
  revert st. induction calls as [|c calls IH]; intros st.
  - cbn. by destruct (AGENTS st !! i).
  - rewrite settle_cons, IH.
    pose proof (submitted_state_frame c.1 c.2 st) as Hframe.
    assert (AGENTS (submitted_state c.1 c.2 st) !! i =
            (if decide (worker_ref (AGENTS st)
                          (assigned_worker_id (TaskRequest.task_type c.2)) = i)
             then credit (TaskRequest.budget_hbar c.2) <$> AGENTS st !! i
             else AGENTS st !! i)) as ->.
    { cbn [submitted_state AGENTS]. rewrite list_lookup_alter.
      case_decide as Hw; [by rewrite Hw | done]. }
    destruct (AGENTS st !! i) as [a|]; [|by case_decide].
    case_decide as Hw; cbn [fmap option_fmap option_map]; f_equal;
      rewrite credited_cons;
      [rewrite decide_True by done | rewrite decide_False by done];
      apply (credited_frame _ _ _ _ _ Hframe).
Qed.

Lemma credited_agent_id agents calls i a :
  Agent.agent_id (credited agents calls i a) = Agent.agent_id a.
Proof.
  revert a. induction calls as [|c calls IH]; intros a; [done|].
  rewrite credited_cons, IH. by case_decide.
Qed.

Lemma credited_tasks_completed agents calls i a :
  Agent.tasks_completed a <= Agent.tasks_completed (credited agents calls i a).
Proof.
  revert a. induction calls as [|c calls IH]; intros a; [done|].
  rewrite credited_cons. etrans; [|apply IH].
  case_decide; cbn; lia.
Qed.

Lemma credited_earnings_hbar agents calls i a :
  Agent.earnings_hbar (credited agents calls i a) =
  foldl (fun e c =>
           if decide (worker_ref agents
                        (assigned_worker_id (TaskRequest.task_type c.2)) = i)
           then round4 (e + TaskRequest.budget_hbar c.2)%float else e)
        (Agent.earnings_hbar a) calls.
Proof.
  revert a. induction calls as [|c calls IH]; intros a; [done|].
  rewrite credited_cons, IH. cbn [foldl]. by case_decide.
Qed.
End settle_facts.

(** ** Reachable states *)

Lemma reachable_frame (st : State) :
  reachable st -> Agent.frame <$> AGENTS st = Agent.frame <$> AGENTS_seed.
Proof.
  induction 1 as [|op st st' _ IH Hexec]; [done|].
  apply exec_settle in Hexec as ->. by rewrite settle_frame.
Qed.

Lemma reachable_length (st : State) :
  reachable st -> length (AGENTS st) = 6%nat.
Proof.
  intros H%reachable_frame. apply (f_equal length) in H.
  by rewrite !length_fmap in H.
Qed.

Lemma reachable_agent_ids (st : State) :
  reachable st ->
  Agent.agent_id <$> AGENTS st =
  ["registry-001"; "broker-001"; "worker-summarizer"; "worker-code-reviewer";
   "worker-data-analyst"; "settlement-001"].
Proof. intros H%reachable_frame%frame_agent_id. by rewrite H. Qed.

(** The router only ever names one of the three workers. *)
Lemma assigned_worker_id_cases (task_type : string) :
  assigned_worker_id task_type = "worker-summarizer" \/
  assigned_worker_id task_type = "worker-code-reviewer" \/
  assigned_worker_id task_type = "worker-data-analyst".
Proof.
  unfold assigned_worker_id, dict_get.
  destruct (skill_map !! task_type) as [w|] eqn:Hw; [|by left].
  unfold skill_map in Hw.
  repeat (apply lookup_insert_Some in Hw as [[_ <-]|[_ Hw]]; [by auto|]).
  apply lookup_singleton_Some in Hw as [_ <-]. by auto.
Qed.

(** In a reachable state the search always finds the assigned worker: the
    positional fallback is not used. *)
Lemma reachable_worker (st : State) (task_type : string) :
  reachable st ->
  exists a,
    AGENTS st !! worker_ref (AGENTS st) (assigned_worker_id task_type) = Some a
    /\ Agent.agent_id a = assigned_worker_id task_type
    /\ Agent.name a =
       (if decide (assigned_worker_id task_type = "worker-summarizer")
        then "Summarizer Worker"
        else if decide (assigned_worker_id task_type = "worker-code-reviewer")
        then "Code Reviewer Worker" else "Data Analyst Worker").
Proof.
  intros Hreach. pose proof (reachable_frame st Hreach) as Hframe.
  rewrite (worker_ref_frame _ _ _ Hframe).
  assert (forall i a0, AGENTS_seed !! i = Some a0 ->
            exists a, AGENTS st !! i = Some a /\ Agent.frame a = Agent.frame a0)
    as Hlook.
  { intros i a0 Hi.
    assert ((Agent.frame <$> AGENTS st) !! i = Some (Agent.frame a0)) as Hi'.
    { by rewrite Hframe, list_lookup_fmap, Hi. }
    rewrite list_lookup_fmap in Hi'.
    destruct (AGENTS st !! i) as [a|]; [|done].
    exists a. split; [done|].
    cbn [fmap option_fmap option_map] in Hi'. congruence. }
  destruct (assigned_worker_id_cases task_type) as [-> | [-> | ->]].
  - destruct (Hlook 2%nat _ eq_refl) as (a & Ha & [= Hid Hname _ _ _ _ _]).
    exists a. by rewrite Hid, Hname.
  - destruct (Hlook 3%nat _ eq_refl) as (a & Ha & [= Hid Hname _ _ _ _ _]).
    exists a. by rewrite Hid, Hname.
  - destruct (Hlook 4%nat _ eq_refl) as (a & Ha & [= Hid Hname _ _ _ _ _]).
    exists a. by rewrite Hid, Hname.
Qed.

(** ** Recent messages and transactions *)

(** C4, as stated, fails: on the seeded state (three messages, three
    transactions) a limit of [0] returns all three entries and a limit of
    [-1] returns the last two, where a clamped limit would return none. *)
Lemma recent_limit_not_clamped :
  (exists total,
     get_messages 0 init_state = Ok ((MESSAGES_seed, total), init_state)) /\
  (exists total,
     get_messages (-1) init_state =
     Ok ((drop 1 MESSAGES_seed, total), init_state)) /\
  ~ recent_messages_clamped 0 init_state /\
  ~ recent_messages_clamped (-1) init_state /\
  ~ recent_transactions_clamped 0 init_state /\
  ~ recent_transactions_clamped (-1) init_state.
Proof.
  split.
  { eexists. rewrite get_messages_run, last_slice_zero. reflexivity. }
  split.
  { eexists. rewrite get_messages_run, last_slice_neg by lia. reflexivity. }
  split_and!; intros (l & total & Hrun & _ & Hlen).
  - rewrite get_messages_run in Hrun. injection Hrun as <- _.
    rewrite last_slice_zero in Hlen. vm_compute in Hlen. discriminate.
  - rewrite get_messages_run in Hrun. injection Hrun as <- _.
    rewrite last_slice_neg in Hlen by lia. vm_compute in Hlen. discriminate.
  - rewrite get_transactions_run in Hrun. injection Hrun as <- _.
    rewrite last_slice_zero in Hlen. vm_compute in Hlen. discriminate.
  - rewrite get_transactions_run in Hrun. injection Hrun as <- _.
    rewrite last_slice_neg in Hlen by lia. vm_compute in Hlen. discriminate.
Qed.

(** C4, amended: for every positive limit [L] and every state, the messages
    query returns, without changing the state, exactly the last
    [min K L] messages of the log (of length [K]) in insertion order, and
    the whole log when [L >= K]; the transactions query does the same on the
    transaction log. *)
Theorem recent_entries_positive_limit (limit : Z) (st : State) :
  0 < limit ->
  exists msgs txns,
    get_messages limit st =
      Ok ((msgs, Z.of_nat (length (MESSAGES st))), st) /\
    msgs `suffix_of` MESSAGES st /\
    Z.of_nat (length msgs) = Z.min (Z.of_nat (length (MESSAGES st))) limit /\
    (Z.of_nat (length (MESSAGES st)) <= limit -> msgs = MESSAGES st) /\
    get_transactions limit st =
      Ok ((txns, Z.of_nat (length (TRANSACTIONS st))), st) /\
    txns `suffix_of` TRANSACTIONS st /\
    Z.of_nat (length txns) =
      Z.min (Z.of_nat (length (TRANSACTIONS st))) limit /\
    (Z.of_nat (length (TRANSACTIONS st)) <= limit -> txns = TRANSACTIONS st).
Proof.
  intros Hlimit.
  exists (last_slice limit (MESSAGES st)), (last_slice limit (TRANSACTIONS st)).
  split_and!.
  - apply get_messages_run.
  - apply last_slice_suffix.
  - by apply last_slice_pos_length.
  - apply last_slice_all.
  - apply get_transactions_run.
  - apply last_slice_suffix.
  - by apply last_slice_pos_length.
  - apply last_slice_all.
Qed.

Lemma recent_entries_positive_limit_witness :
  0 < 2 /\
  exists msgs txns,
    get_messages 2 init_state =
      Ok ((msgs, Z.of_nat (length (MESSAGES init_state))), init_state) /\
    msgs `suffix_of` MESSAGES init_state /\
    Z.of_nat (length msgs) =
      Z.min (Z.of_nat (length (MESSAGES init_state))) 2 /\
    (Z.of_nat (length (MESSAGES init_state)) <= 2 ->
     msgs = MESSAGES init_state) /\
    get_transactions 2 init_state =
      Ok ((txns, Z.of_nat (length (TRANSACTIONS init_state))), init_state) /\
    txns `suffix_of` TRANSACTIONS init_state /\
    Z.of_nat (length txns) =
      Z.min (Z.of_nat (length (TRANSACTIONS init_state))) 2 /\
    (Z.of_nat (length (TRANSACTIONS init_state)) <= 2 ->
     txns = TRANSACTIONS init_state).
Proof.
  split; [lia|]. apply (recent_entries_positive_limit 2 init_state). lia.
Defined.

(** ** The skill router *)

(** C5: the router is a function of the task type alone (it takes no state
    and no environment); each known task type is sent to the worker of its
    skill cluster, and a task type with no entry in the skill map is sent to
    the summarizer. *)
Theorem skill_router_clusters_and_fallback (task_type : string) :
  Forall (fun t => assigned_worker_id t = "worker-summarizer")
         ["summarize"; "tldr"; "abstract"] /\
  Forall (fun t => assigned_worker_id t = "worker-code-reviewer")
         ["review"; "lint"; "security-scan"] /\
  Forall (fun t => assigned_worker_id t = "worker-data-analyst")
         ["analyze"; "stats"; "chart"] /\
  (skill_map !! task_type = None ->
   assigned_worker_id task_type = "worker-summarizer") /\
  (task_type ∉ ["summarize"; "tldr"; "abstract"; "review"; "lint";
                "security-scan"; "analyze"; "stats"; "chart"] ->
   skill_map !! task_type = None).
Proof.
  split_and!.
  - repeat constructor.
  - repeat constructor.
  - repeat constructor.
  - intros Hnone. unfold assigned_worker_id, dict_get. by rewrite Hnone.
  - intros Hnot. unfold skill_map.
    repeat (rewrite lookup_insert_ne by (intros <-; apply Hnot; set_solver)).
    rewrite lookup_singleton_ne by (intros <-; apply Hnot; set_solver). done.
Qed.

Lemma skill_router_clusters_and_fallback_witness :
  assigned_worker_id "translate" = "worker-summarizer".
Proof.
  destruct (skill_router_clusters_and_fallback "translate")
    as (_ & _ & _ & Hfallback & Hunknown).
  apply Hfallback, Hunknown.
  intros Hin. repeat (apply elem_of_cons in Hin as [Hin|Hin]; [discriminate|]).
  by apply elem_of_nil in Hin.
Defined.

(** ** The snapshot *)

(** C9: building the snapshot returns the state it was given, unchanged, and
    every part of the result is read off that one state: the agents view is
    the registry, the message and transaction views are the last 50 and 20
    log entries, and the stats are the two counters (the settled value
    rounded to 4 digits), the number of busy agents in the agents view and
    the length of the agents view. *)
Theorem snapshot_pure_read (now : string) (st : State) :
  exists snap,
    _economy_snapshot now st = Ok (snap, st) /\
    Snapshot.agents snap = AGENTS st /\
    Snapshot.messages snap = last_slice 50 (MESSAGES st) /\
    Snapshot.transactions snap = last_slice 20 (TRANSACTIONS st) /\
    Snapshot.messages snap `suffix_of` MESSAGES st /\
    Snapshot.transactions snap `suffix_of` TRANSACTIONS st /\
    Stats.tasks_completed (Snapshot.stats snap) = _tasks_completed st /\
    Stats.total_hbar_settled (Snapshot.stats snap) =
      round4 (_total_hbar_settled st) /\
    Stats.active_agents (Snapshot.stats snap) =
      Z.of_nat (length (filter (fun a => Agent.status a = "busy")
                               (Snapshot.agents snap))) /\
    Stats.total_agents (Snapshot.stats snap) =
      Z.of_nat (length (Snapshot.agents snap)).
Proof.
  eexists. split; [apply _economy_snapshot_run|].
  cbn [Snapshot.agents Snapshot.messages Snapshot.transactions Snapshot.stats
       Stats.tasks_completed Stats.total_hbar_settled Stats.active_agents
       Stats.total_agents].
  split_and!; try reflexivity; apply last_slice_suffix.
Qed.

(** ** One submission *)

(** C1, as stated, fails: a submission with budget [-1.0] on the seeded
    state does not raise; it returns a completed receipt and changes both
    counters, both logs and the summarizer's record. *)
Lemma negative_budget_is_settled :
  (TaskRequest.budget_hbar req_negative <? 0)%float = true /\
  valid_budget (TaskRequest.budget_hbar req_negative) = false /\
  exists r st',
    submit_task env_a req_negative init_state = Ok (r, st') /\
    Receipt.status r = "completed" /\
    _tasks_completed init_state = 798 /\ _tasks_completed st' = 799 /\
    _total_hbar_settled init_state = 2.25%float /\
    _total_hbar_settled st' = 1.25%float /\
    length (TRANSACTIONS init_state) = 3%nat /\
    length (TRANSACTIONS st') = 4%nat /\
    length (MESSAGES init_state) = 3%nat /\
    length (MESSAGES st') = 4%nat /\
    Agent.earnings_hbar <$> AGENTS init_state !! 2%nat = Some 44.5%float /\
    Agent.earnings_hbar <$> AGENTS st' !! 2%nat = Some 43.5%float /\
    st' <> init_state.
Proof.
  split; [reflexivity|]. split; [reflexivity|].
  destruct (submit_task_run env_a req_negative init_state) as (a & Ha & Hrun).
  { cbn. lia. }
  eexists _, _. split; [exact Hrun|].
  split_and!; try (vm_compute; reflexivity).
  intros Heq. apply (f_equal _tasks_completed) in Heq.
  vm_compute in Heq. discriminate.
Qed.

(** C1, amended: from every reachable state, a submission with any budget
    whatever (negative ones included) succeeds: it returns a completed
    receipt, adds one to the completed-tasks counter, replaces the
    settled-value counter by [round(old + budget, 4)], appends one
    transaction carrying the budget and one message, and credits the
    resolved worker.  The handler has no validation step. *)
Theorem submit_task_settles_any_budget (env : Env) (req : TaskRequest.t)
    (st : State) :
  reachable st ->
  exists r st' tx msg,
    submit_task env req st = Ok (r, st') /\
    Receipt.status r = "completed" /\
    _tasks_completed st' = _tasks_completed st + 1 /\
    _total_hbar_settled st' =
      round4 (_total_hbar_settled st + TaskRequest.budget_hbar req)%float /\
    TRANSACTIONS st' = TRANSACTIONS st ++ [tx] /\
    Transaction.amount_hbar tx = TaskRequest.budget_hbar req /\
    MESSAGES st' = MESSAGES st ++ [msg] /\
    AGENTS st' =
      alter (credit (TaskRequest.budget_hbar req))
        (worker_ref (AGENTS st)
           (assigned_worker_id (TaskRequest.task_type req)))
        (AGENTS st).
Proof.
  intros Hreach.
  destruct (submit_task_run env req st) as (a & _ & Hrun).
  { rewrite (reachable_length st Hreach). lia. }
  exists (submitted_receipt env req st a), (submitted_state env req st),
    (submitted_transaction env req), (submitted_message env req).
  split; [exact Hrun|]. by split_and!.
Qed.

Lemma submit_task_settles_any_budget_witness :
  exists r st' tx msg,
    submit_task env_a req_negative init_state = Ok (r, st') /\
    Receipt.status r = "completed" /\
    _tasks_completed st' = _tasks_completed init_state + 1 /\
    _total_hbar_settled st' =
      round4 (_total_hbar_settled init_state +
              TaskRequest.budget_hbar req_negative)%float /\
    TRANSACTIONS st' = TRANSACTIONS init_state ++ [tx] /\
    Transaction.amount_hbar tx = TaskRequest.budget_hbar req_negative /\
    MESSAGES st' = MESSAGES init_state ++ [msg] /\
    AGENTS st' =
      alter (credit (TaskRequest.budget_hbar req_negative))
        (worker_ref (AGENTS init_state)
           (assigned_worker_id (TaskRequest.task_type req_negative)))
        (AGENTS init_state).
Proof.
  apply (submit_task_settles_any_budget env_a req_negative init_state).
  exact reach_init.
Defined.

(** C6: from every reachable state, a submission of task type ["summarize"]
    with budget [B] returns a receipt whose status is ["completed"], whose
    [assigned_to] is the display name of the agent with id
    ["worker-summarizer"], namely ["Summarizer Worker"], and whose cost is
    [B]; the transaction log and the message log each grow by exactly one
    entry. *)
Theorem submit_summarize_receipt (env : Env) (payload : text) (B : float)
    (st : State) :
  reachable st ->
  valid_budget B = true ->
  exists r st' a,
    submit_task env (TaskRequest.mk "summarize" payload B) st = Ok (r, st') /\
    Receipt.status r = "completed" /\
    a ∈ AGENTS st /\ Agent.agent_id a = "worker-summarizer" /\
    Receipt.assigned_to r = Agent.name a /\
    Receipt.assigned_to r = "Summarizer Worker" /\
    Receipt.cost_hbar r = B /\
    length (TRANSACTIONS st') = S (length (TRANSACTIONS st)) /\
    length (MESSAGES st') = S (length (MESSAGES st)).
Proof.
  intros Hreach _.
  set (req := TaskRequest.mk "summarize" payload B).
  destruct (reachable_worker st "summarize" Hreach) as (a & Ha & Hid & Hname).
  destruct (submit_task_run env req st) as (a' & Ha' & Hrun).
  { rewrite (reachable_length st Hreach). lia. }
  change (TaskRequest.task_type req) with "summarize" in Ha'.
  rewrite Ha in Ha'. injection Ha' as <-.
  exists (submitted_receipt env req st a), (submitted_state env req st), a.
  split; [exact Hrun|].
  split_and!; try done.
  - by eapply list_elem_of_lookup_2.
  - cbn [submitted_state TRANSACTIONS]. rewrite length_app. cbn. lia.
  - cbn [submitted_state MESSAGES]. rewrite length_app. cbn. lia.
Qed.

Lemma submit_summarize_receipt_witness :
  exists r st' a,
    submit_task env_a req_fox init_state = Ok (r, st') /\
    Receipt.status r = "completed" /\
    a ∈ AGENTS init_state /\ Agent.agent_id a = "worker-summarizer" /\
    Receipt.assigned_to r = Agent.name a /\
    Receipt.assigned_to r = "Summarizer Worker" /\
    Receipt.cost_hbar r = 0.5%float /\
    length (TRANSACTIONS st') = S (length (TRANSACTIONS init_state)) /\
    length (MESSAGES st') = S (length (MESSAGES init_state)).
Proof.
  apply (submit_summarize_receipt env_a (lit "The quick brown fox") 0.5
           init_state).
  - exact reach_init.
  - reflexivity.
Defined.

Lemma randint_bounds (a b draw : Z) : a <= b -> a <= randint a b draw <= b.
Proof.
  intros Hab. unfold randint.
  pose proof (Z.mod_pos_bound draw (b - a + 1)). lia.
Qed.

(** C10: from every reachable state a submission succeeds, and the receipt
    agrees with the two records appended by the same call: the transaction
    has the receipt's task id, cost, reference id and duration, and its
    worker id is the id of the agent whose display name the receipt shows;
    the message has the same task id and reference id, and its result is
    the first 80 characters of the receipt's result text; the duration lies
    in [280, 650]. *)
Theorem submit_records_agree (env : Env) (req : TaskRequest.t) (st : State) :
  reachable st ->
  exists r st' tx msg a,
    submit_task env req st = Ok (r, st') /\
    TRANSACTIONS st' = TRANSACTIONS st ++ [tx] /\
    MESSAGES st' = MESSAGES st ++ [msg] /\
    Transaction.task_id tx = Receipt.task_id r /\
    a ∈ AGENTS st' /\
    Agent.name a = Receipt.assigned_to r /\
    Agent.agent_id a = assigned_worker_id (TaskRequest.task_type req) /\
    Transaction.worker_id tx = Agent.agent_id a /\
    Transaction.amount_hbar tx = Receipt.cost_hbar r /\
    Transaction.tx_id tx = Receipt.tx_id r /\
    Transaction.duration_ms tx = Receipt.duration_ms r /\
    Message.payload msg !! "task_id" = Some (VStr (Receipt.task_id r)) /\
    Message.tx_id msg = Receipt.tx_id r /\
    Message.payload msg !! "result" =
      Some (VText (take 80 (Receipt.result r))) /\
    (length (take 80 (Receipt.result r)) <= 80)%nat /\
    280 <= Receipt.duration_ms r <= 650.
Proof.
  intros Hreach.
  destruct (reachable_worker st (TaskRequest.task_type req) Hreach)
    as (a & Ha & Hid & _).
  destruct (submit_task_run env req st) as (a' & Ha' & Hrun).
  { rewrite (reachable_length st Hreach). lia. }
  rewrite Ha in Ha'. injection Ha' as <-.
  exists (submitted_receipt env req st a), (submitted_state env req st),
    (submitted_transaction env req), (submitted_message env req),
    (credit (TaskRequest.budget_hbar req) a).
  split; [exact Hrun|].
  split_and!; try done.
  - cbn [submitted_state AGENTS].
    eapply list_elem_of_lookup_2. by rewrite list_lookup_alter_eq, Ha.
  - rewrite length_take. lia.
  - by apply randint_bounds.
  - by apply randint_bounds.
Qed.

Lemma submit_records_agree_witness :
  exists r st' tx msg a,
    submit_task env_b req_fox init_state = Ok (r, st') /\
    TRANSACTIONS st' = TRANSACTIONS init_state ++ [tx] /\
    MESSAGES st' = MESSAGES init_state ++ [msg] /\
    Transaction.task_id tx = Receipt.task_id r /\
    a ∈ AGENTS st' /\
    Agent.name a = Receipt.assigned_to r /\
    Agent.agent_id a = assigned_worker_id (TaskRequest.task_type req_fox) /\
    Transaction.worker_id tx = Agent.agent_id a /\
    Transaction.amount_hbar tx = Receipt.cost_hbar r /\
    Transaction.tx_id tx = Receipt.tx_id r /\
    Transaction.duration_ms tx = Receipt.duration_ms r /\
    Message.payload msg !! "task_id" = Some (VStr (Receipt.task_id r)) /\
    Message.tx_id msg = Receipt.tx_id r /\
    Message.payload msg !! "result" =
      Some (VText (take 80 (Receipt.result r))) /\
    (length (take 80 (Receipt.result r)) <= 80)%nat /\
    280 <= Receipt.duration_ms r <= 650.
Proof.
  apply (submit_records_agree env_b req_fox init_state). exact reach_init.
Defined.

(** ** Many submissions: the two cumulative counters *)

(** C2, as stated, fails: two submissions of the valid budget [2^-15] on the
    seeded state leave the settled-value counter at [2.25], because each
    addition is rounded back to [2.25]; the seed plus the sum of the two
    budgets, rounded once to 4 digits, is [2.2501], and so is the rounded
    sum of all transaction amounts in the log. *)
Lemma settled_counter_rounds_every_step :
  let calls := [(env_a, req_tiny); (env_b, req_tiny)] in
  Forall (fun c => valid_budget (TaskRequest.budget_hbar c.2) = true) calls /\
  exists rs st',
    submit_all calls init_state = Ok (rs, st') /\
    _total_hbar_settled st' = 2.25%float /\
    round4 (_total_hbar_settled init_state +
            fsum ((fun c => TaskRequest.budget_hbar c.2) <$> calls))%float
      = 2.2501%float /\
    round4 (fsum (Transaction.amount_hbar <$> TRANSACTIONS st')) = 2.2501%float /\
    (_total_hbar_settled st' =? 2.2501)%float = false.
Proof.
  intros calls. split; [by repeat constructor|].
  destruct (submit_all_run calls init_state) as (rs & Hrun & _).
  { cbn. lia. }
  exists rs, (settle calls init_state). split; [exact Hrun|].
  rewrite settle_total_hbar_settled, settle_TRANSACTIONS.
  split_and!; vm_compute; reflexivity.
Qed.

(** C2, amended: for every sequence of N submissions (with any budgets)
    starting from the seeded state, all N succeed; the completed-tasks
    counter ends at its seed value 798 plus N; the N transactions appended
    carry the N budgets in order; and the settled-value counter ends at the
    value obtained from its seed 2.25 by adding the appended amounts one at
    a time, rounding to 4 digits after each addition. *)
Theorem counters_after_submissions (calls : list (Env * TaskRequest.t)) :
  exists rs st' txs,
    submit_all calls init_state = Ok (rs, st') /\
    length rs = length calls /\
    _tasks_completed init_state = 798 /\
    _total_hbar_settled init_state = 2.25%float /\
    _tasks_completed st' = 798 + Z.of_nat (length calls) /\
    TRANSACTIONS st' = TRANSACTIONS init_state ++ txs /\
    Transaction.amount_hbar <$> txs =
      (fun c => TaskRequest.budget_hbar c.2) <$> calls /\
    _total_hbar_settled st' =
      foldl (fun acc c => round4 (acc + TaskRequest.budget_hbar c.2)%float)
            2.25%float calls /\
    _total_hbar_settled st' =
      foldl (fun acc tx => round4 (acc + Transaction.amount_hbar tx)%float)
            2.25%float txs.
Proof.
  destruct (submit_all_run calls init_state) as (rs & Hrun & Hall).
  { cbn. lia. }
  exists rs, (settle calls init_state),
    ((fun c => submitted_transaction c.1 c.2) <$> calls).
  split; [exact Hrun|]. split_and!.
  - symmetry. by eapply Forall2_length.
  - reflexivity.
  - reflexivity.
  - by rewrite settle_tasks_completed.
  - apply settle_TRANSACTIONS.
  - by rewrite <- list_fmap_compose.
  - by rewrite settle_total_hbar_settled.
  - by rewrite settle_total_hbar_settled, foldl_fmap.
Qed.

(** ** The demo cycle *)

(** C7: from every reachable state the demo operation succeeds and returns
    exactly 3 receipts, whose costs sum to [0.5 + 1.0 + 0.75 = 2.25], and
    the completed-tasks counter grows by exactly 3. *)
Theorem run_demo_three_results (env : nat -> Env) (st : State) :
  reachable st ->
  exists d st',
    run_demo env st = Ok (d, st') /\
    length (DemoResult.results d) = 3%nat /\
    DemoResult.tasks_executed d = 3 /\
    DemoResult.total_hbar_spent d =
      fsum (Receipt.cost_hbar <$> DemoResult.results d) /\
    DemoResult.total_hbar_spent d = (0.5 + 1.0 + 0.75)%float /\
    DemoResult.total_hbar_spent d = 2.25%float /\
    _tasks_completed st' = _tasks_completed st + 3.
Proof.
  intros Hreach.
  destruct (run_demo_run env st) as (rs & Hrun & Hall).
  { rewrite (reachable_length st Hreach). lia. }
  cbn [op_calls demo_tasks imap] in Hall.
  apply Forall2_cons_inv_l in Hall as (r1 & rs1 & [_ H1] & Hall & ->).
  apply Forall2_cons_inv_l in Hall as (r2 & rs2 & [_ H2] & Hall & ->).
  apply Forall2_cons_inv_l in Hall as (r3 & rs3 & [_ H3] & Hall & ->).
  apply Forall2_nil_inv_l in Hall as ->.
  cbn in H1, H2, H3.
  eexists _, _. split; [exact Hrun|].
  cbn [DemoResult.results DemoResult.tasks_executed
       DemoResult.total_hbar_spent].
  split_and!; try reflexivity.
  - cbn [fmap list_fmap]. by rewrite H1, H2, H3.
  - cbn [fmap list_fmap]. by rewrite H1, H2, H3.
  - rewrite settle_tasks_completed. reflexivity.
Qed.

Lemma run_demo_three_results_witness :
  exists d st',
    run_demo (fun k => if Nat.even k then env_a else env_b) init_state
      = Ok (d, st') /\
    length (DemoResult.results d) = 3%nat /\
    DemoResult.tasks_executed d = 3 /\
    DemoResult.total_hbar_spent d =
      fsum (Receipt.cost_hbar <$> DemoResult.results d) /\
    DemoResult.total_hbar_spent d = (0.5 + 1.0 + 0.75)%float /\
    DemoResult.total_hbar_spent d = 2.25%float /\
    _tasks_completed st' = _tasks_completed init_state + 3.
Proof.
  apply (run_demo_three_results _ init_state). exact reach_init.
Defined.

(** ** Transaction reference ids *)

(** The reference id is a function of the clock reading alone. *)
Lemma submit_task_tx_id (env : Env) (req : TaskRequest.t) (st st' : State)
    (r : Receipt.t) :
  submit_task env req st = Ok (r, st') ->
  Receipt.tx_id r = tx_id_of (clock env).
Proof.
  intros Hrun.
  destruct (decide (2 < length (AGENTS st))%nat) as [Hlen|Hlen].
  - destruct (submit_task_run env req st Hlen) as (a & _ & Hrun').
    rewrite Hrun' in Hrun. by injection Hrun as <- _.
  - by rewrite submit_task_raises in Hrun by lia.
Qed.

Lemma string_length_app (s t : string) :
  String.length (s +:+ t) = (String.length s + String.length t)%nat.
Proof.
  induction s as [|a s IH]; [done|].
  change (String a s +:+ t) with (String a (s +:+ t)).
  cbn [String.length]. by rewrite IH.
Qed.

Lemma string_app_inj_r (t s1 s2 : string) : s1 +:+ t = s2 +:+ t -> s1 = s2.
Proof.
  revert s2. induction s1 as [|a s1 IH]; intros [|b s2] H; [done| | |].
  - apply (f_equal String.length) in H.
    rewrite !string_length_app in H. cbn [String.length] in H. lia.
  - apply (f_equal String.length) in H.
    rewrite !string_length_app in H. cbn [String.length] in H. lia.
  - change (String a (s1 +:+ t) = String b (s2 +:+ t)) in H.
    injection H as -> H. f_equal. by apply IH.
Qed.

(** Distinct seconds do give distinct reference ids. *)
Lemma tx_id_of_inj (ts1 ts2 : Z) : tx_id_of ts1 = tx_id_of ts2 -> ts1 = ts2.
Proof.
  unfold tx_id_of. intros H.
  apply (inj (String.app "0.0.5483526@")) in H.
  apply string_app_inj_r in H.
  by apply (inj pretty) in H.
Qed.

(** C3 fails on the code: two submissions whose clock readings fall in the
    same second (here 1783000000) get different task ids but the same
    transaction reference id, and the transaction log then holds that
    reference id twice. *)
Theorem tx_id_repeats_within_one_second :
  clock env_a = clock env_b /\
  uuid_task env_a <> uuid_task env_b /\
  exists r1 r2 st',
    submit_all [(env_a, req_fox); (env_b, req_fox)] init_state
      = Ok ([r1; r2], st') /\
    Receipt.task_id r1 <> Receipt.task_id r2 /\
    Receipt.tx_id r1 = "0.0.5483526@1783000000.000000000" /\
    Receipt.tx_id r2 = "0.0.5483526@1783000000.000000000" /\
    NoDup (Transaction.tx_id <$> TRANSACTIONS init_state) /\
    ~ NoDup (Transaction.tx_id <$> TRANSACTIONS st').
Proof.
  split; [reflexivity|]. split; [done|].
  destruct (submit_task_run env_a req_fox init_state) as (a1 & _ & H1).
  { cbn. lia. }
  destruct (submit_task_run env_b req_fox (submitted_state env_a req_fox init_state))
    as (a2 & _ & H2).
  { rewrite submitted_state_length. cbn. lia. }
  eexists _, _, _. split.
  { cbn [submit_all]. unfold mbind, M_bind at 1. rewrite H1. cbn beta iota.
    unfold mbind, M_bind at 1. unfold mbind, M_bind at 1.
    rewrite H2. reflexivity. }
  split_and!.
  - vm_compute. discriminate.
  - reflexivity.
  - reflexivity.
  - apply (bool_decide_unpack _). vm_compute. exact I.
  - cbn [submitted_state TRANSACTIONS]. rewrite !fmap_app.
    intros Hdup. apply NoDup_app in Hdup as (_ & Hdisj & _).
    apply (Hdisj (tx_id_of 1783000000)).
    + apply elem_of_app. right. by left.
    + by left.
Qed.

(** ** Agent records across operations *)

(** C8, as stated, fails: the submission with budget [-1.0] on the seeded
    state lowers the summarizer's cumulative earnings from 44.5 to 43.5. *)
Lemma earnings_drop_on_negative_budget :
  exists st' a a',
    exec (OpSubmit env_a req_negative) init_state = Ok st' /\
    AGENTS init_state !! 2%nat = Some a /\
    AGENTS st' !! 2%nat = Some a' /\
    Agent.agent_id a = "worker-summarizer" /\
    Agent.agent_id a' = "worker-summarizer" /\
    Agent.earnings_hbar a = 44.5%float /\
    Agent.earnings_hbar a' = 43.5%float /\
    (Agent.earnings_hbar a <=? Agent.earnings_hbar a')%float = false.
Proof.
  destruct (submit_task_run env_a req_negative init_state) as (a0 & _ & Hrun).
  { cbn. lia. }
  eexists (submitted_state env_a req_negative init_state), _, _.
  split; [cbn [exec]; unfold after; by rewrite Hrun|].
  split; [reflexivity|]. split; [vm_compute; reflexivity|].
  split_and!; reflexivity.
Qed.

(** C8, amended: across every operation, from every reachable state, the
    list of agent ids is unchanged and free of duplicates, and every agent
    keeps its id and has a tasks-completed counter at least as large as
    before.  Its cumulative earnings are changed only by the submissions of
    the operation that are routed to it, each replacing the earnings [e] by
    [round(e + budget, 4)], whatever the sign of the budget. *)
Theorem agents_across_operations (op : Op) (st st' : State) :
  reachable st ->
  exec op st = Ok st' ->
  Agent.agent_id <$> AGENTS st' = Agent.agent_id <$> AGENTS st /\
  NoDup (Agent.agent_id <$> AGENTS st') /\
  forall i a,
    AGENTS st !! i = Some a ->
    exists a',
      AGENTS st' !! i = Some a' /\
      Agent.agent_id a' = Agent.agent_id a /\
      Agent.tasks_completed a <= Agent.tasks_completed a' /\
      Agent.earnings_hbar a' =
        foldl (fun e c =>
                 if decide (worker_ref (AGENTS st)
                              (assigned_worker_id (TaskRequest.task_type c.2))
                            = i)
                 then round4 (e + TaskRequest.budget_hbar c.2)%float else e)
              (Agent.earnings_hbar a) (op_calls op).
Proof.
  intros Hreach Hexec.
  assert (reachable st') as Hreach' by (by eapply reach_step).
  apply exec_settle in Hexec as ->.
  split_and!.
  - apply frame_agent_id, settle_frame.
  - rewrite (reachable_agent_ids _ Hreach').
    apply (bool_decide_unpack _). vm_compute. exact I.
  - intros i a Hi. exists (credited (AGENTS st) (op_calls op) i a).
    rewrite settle_lookup, Hi. split_and!.
    + reflexivity.
    + apply credited_agent_id.
    + apply credited_tasks_completed.
    + apply credited_earnings_hbar.
Qed.

Lemma agents_across_operations_witness :
  Agent.agent_id <$> AGENTS (submitted_state env_a req_negative init_state)
    = Agent.agent_id <$> AGENTS init_state /\
  NoDup (Agent.agent_id <$>
           AGENTS (submitted_state env_a req_negative init_state)) /\
  forall i a,
    AGENTS init_state !! i = Some a ->
    exists a',
      AGENTS (submitted_state env_a req_negative init_state) !! i = Some a' /\
      Agent.agent_id a' = Agent.agent_id a /\
      Agent.tasks_completed a <= Agent.tasks_completed a' /\
      Agent.earnings_hbar a' =
        foldl (fun e c =>
                 if decide (worker_ref (AGENTS init_state)
                              (assigned_worker_id (TaskRequest.task_type c.2))
                            = i)
                 then round4 (e + TaskRequest.budget_hbar c.2)%float else e)
              (Agent.earnings_hbar a)
              (op_calls (OpSubmit env_a req_negative)).
Proof.
  apply (agents_across_operations (OpSubmit env_a req_negative) init_state).
  - exact reach_init.
  - vm_compute. reflexivity.
Defined.

(** ** When a submission raises *)

(** X1: a submission succeeds exactly when the registry holds at least three
    agents; otherwise it raises [IndexError], because [AGENTS[2]] is
    evaluated before the search, whether or not an agent with the assigned
    id is registered.  The demo cycle succeeds and fails with it. *)
Theorem submit_task_succeeds_iff (env : Env) (req : TaskRequest.t)
    (envs : nat -> Env) (st : State) :
  ((exists r st', submit_task env req st = Ok (r, st')) <->
   (2 < length (AGENTS st))%nat) /\
  (submit_task env req st = Raise IndexError <->
   (length (AGENTS st) <= 2)%nat) /\
  ((exists d st', run_demo envs st = Ok (d, st')) <->
   (2 < length (AGENTS st))%nat) /\
  (run_demo envs st = Raise IndexError <-> (length (AGENTS st) <= 2)%nat).
Proof.
  destruct (decide (2 < length (AGENTS st))%nat) as [Hlen|Hlen].
  - destruct (submit_task_run env req st Hlen) as (a & _ & Hrun).
    destruct (run_demo_run envs st Hlen) as (rs & Hdemo & _).
    rewrite Hrun, Hdemo. split_and!; split; try done; try lia; eauto.
  - assert (run_demo envs st = Raise IndexError) as Hdemo.
    { unfold run_demo, mbind, M_bind. rewrite submit_each_all.
      cbn [demo_tasks imap]. by rewrite submit_all_raises by lia. }
    rewrite submit_task_raises, Hdemo by lia.
    split_and!; split; try done; try lia; by intros (? & ? & ?).
Qed.

(** X2: from every reachable state every operation succeeds, and the state
    it leaves is reachable again: the running service never raises. *)
Theorem reachable_never_raises (op : Op) (st : State) :
  reachable st -> exists st', exec op st = Ok st' /\ reachable st'.
Proof.
  intros Hreach.
  assert (exists st', exec op st = Ok st') as [st' Hexec].
  { assert (2 < length (AGENTS st))%nat as Hlen
      by (rewrite (reachable_length st Hreach); lia).
    destruct op; try by eexists.
    - destruct (submit_task_run env req st Hlen) as (a & _ & Hrun).
      eexists. cbn [exec]. unfold after. by rewrite Hrun.
    - destruct (run_demo_run env st Hlen) as (rs & Hrun & _).
      eexists. cbn [exec]. unfold after. by rewrite Hrun. }
  exists st'. split; [done|]. by eapply reach_step.
Qed.

Lemma reachable_never_raises_witness :
  exists st', exec (OpSubmit env_a req_negative) init_state = Ok st' /\
              reachable st'.
Proof.
  apply (reachable_never_raises (OpSubmit env_a req_negative) init_state).
  exact reach_init.
Defined.

(** X3: when the registry has at least three agents and none of them has
    the assigned id, the submission is credited to the agent at position 2:
    that agent's name is on the receipt and its record is the one updated,
    while the appended transaction still names the assigned id. *)
Theorem submit_task_positional_fallback (env : Env) (req : TaskRequest.t)
    (st : State) :
  (2 < length (AGENTS st))%nat ->
  Forall (fun a => Agent.agent_id a <>
                   assigned_worker_id (TaskRequest.task_type req))
         (AGENTS st) ->
  exists r st' a2 tx,
    AGENTS st !! 2%nat = Some a2 /\
    submit_task env req st = Ok (r, st') /\
    Receipt.assigned_to r = Agent.name a2 /\
    AGENTS st' = alter (credit (TaskRequest.budget_hbar req)) 2%nat (AGENTS st) /\
    TRANSACTIONS st' = TRANSACTIONS st ++ [tx] /\
    Transaction.worker_id tx = assigned_worker_id (TaskRequest.task_type req) /\
    Transaction.worker_id tx <> Agent.agent_id a2.
Proof.
  intros Hlen Hnone.
  assert (worker_ref (AGENTS st)
            (assigned_worker_id (TaskRequest.task_type req)) = 2%nat) as Hw.
  { unfold worker_ref.
    by rewrite (proj2 (list_find_None _ (AGENTS st)) Hnone). }
  destruct (submit_task_run env req st Hlen) as (a2 & Ha2 & Hrun).
  rewrite Hw in Ha2.
  exists (submitted_receipt env req st a2), (submitted_state env req st), a2,
    (submitted_transaction env req).
  split_and!; try done.
  - cbn [submitted_state AGENTS]. by rewrite Hw.
  - cbn [submitted_transaction Transaction.worker_id]. intros Heq.
    eapply Forall_lookup_1 in Hnone; [|exact Ha2]. by apply Hnone.
Qed.

Lemma submit_task_positional_fallback_witness :
  exists r st' a2 tx,
    AGENTS st_three_agents !! 2%nat = Some a2 /\
    submit_task env_a req_review st_three_agents = Ok (r, st') /\
    Receipt.assigned_to r = Agent.name a2 /\
    AGENTS st' =
      alter (credit (TaskRequest.budget_hbar req_review)) 2%nat
        (AGENTS st_three_agents) /\
    TRANSACTIONS st' = TRANSACTIONS st_three_agents ++ [tx] /\
    Transaction.worker_id tx =
      assigned_worker_id (TaskRequest.task_type req_review) /\
    Transaction.worker_id tx <> Agent.agent_id a2.
Proof.
  apply (submit_task_positional_fallback env_a req_review st_three_agents).
  - cbn. lia.
  - repeat constructor; discriminate.
Defined.

(** ** Sequence numbers *)

Lemma settle_MESSAGES_length (calls : list (Env * TaskRequest.t)) (st : State) :
  length (MESSAGES (settle calls st)) =
  (length (MESSAGES st) + length calls)%nat.
Proof. by rewrite settle_MESSAGES, length_app, length_fmap. Qed.

Lemma settle_TRANSACTIONS_length (calls : list (Env * TaskRequest.t))
    (st : State) :
  length (TRANSACTIONS (settle calls st)) =
  (length (TRANSACTIONS st) + length calls)%nat.
Proof. by rewrite settle_TRANSACTIONS, length_app, length_fmap. Qed.

Lemma submit_all_receipts (calls : list (Env * TaskRequest.t)) (st : State) :
  (2 < length (AGENTS st))%nat ->
  exists rs,
    submit_all calls st = Ok (rs, settle calls st) /\
    length rs = length calls /\
    forall k r,
      rs !! k = Some r ->
      Receipt.hcs_sequence r =
        hcs_sequence_after (length (MESSAGES st) + k + 1).
Proof.
  revert st. induction calls as [|[env req] calls IH]; intros st Hlen.
  - exists []. split; [reflexivity|]. split; [done|]. by intros k r.
  - destruct (submit_task_run env req st Hlen) as (a & _ & Hrun).
    destruct (IH (submitted_state env req st)) as (rs & Hrs & Hn & Hseq).
    { by rewrite submitted_state_length. }
    exists (submitted_receipt env req st a :: rs). split_and!.
    + cbn [submit_all]. unfold mbind, M_bind at 1. rewrite Hrun.
      unfold mbind, M_bind at 1. rewrite Hrs. reflexivity.
    + cbn. by rewrite Hn.
    + intros [|k] r Hr.
      * injection Hr as <-.
        cbn [submitted_receipt Receipt.hcs_sequence]. unfold hcs_sequence_after.
        rewrite length_app. cbn [length]. do 2 f_equal. lia.
      * rewrite (Hseq k r Hr). cbn [submitted_state MESSAGES].
        rewrite length_app. cbn [length]. f_equal. lia.
Qed.

(** X4: the receipts of consecutive submissions carry consecutive sequence
    numbers: with [K] messages logged beforehand, the [k]-th receipt (from
    0) has [hcs_sequence = 1000 + K + k + 1], the length of the message log
    right after its own message was appended. *)
Theorem hcs_sequence_consecutive (calls : list (Env * TaskRequest.t))
    (st : State) :
  (2 < length (AGENTS st))%nat ->
  exists rs st',
    submit_all calls st = Ok (rs, st') /\
    length rs = length calls /\
    forall k r,
      rs !! k = Some r ->
      Receipt.hcs_sequence r =
        1000 + Z.of_nat (length (MESSAGES st)) + Z.of_nat k + 1.
Proof.
  intros Hlen.
  destruct (submit_all_receipts calls st Hlen) as (rs & Hrun & Hn & Hseq).
  exists rs, (settle calls st). split_and!; [done..|].
  intros k r Hr. rewrite (Hseq k r Hr). unfold hcs_sequence_after. lia.
Qed.

Lemma hcs_sequence_consecutive_witness :
  exists rs st',
    submit_all [(env_a, req_fox); (env_b, req_review)] init_state
      = Ok (rs, st') /\
    length rs = 2%nat /\
    forall k r,
      rs !! k = Some r ->
      Receipt.hcs_sequence r =
        1000 + Z.of_nat (length (MESSAGES init_state)) + Z.of_nat k + 1.
Proof.
  apply (hcs_sequence_consecutive
           [(env_a, req_fox); (env_b, req_review)] init_state).
  cbn. lia.
Defined.

(** ** The logs are append-only *)

(** X5: every operation that succeeds, from any state, leaves both logs
    extended at the end only: the old message log and the old transaction
    log are prefixes of the new ones, and each log grows by exactly the
    number of submissions the operation performs (none for the read-only
    handlers, one for a submission, three for the demo cycle). *)
Theorem logs_append_only (op : Op) (st st' : State) :
  exec op st = Ok st' ->
  MESSAGES st `prefix_of` MESSAGES st' /\
  TRANSACTIONS st `prefix_of` TRANSACTIONS st' /\
  length (MESSAGES st') = (length (MESSAGES st) + length (op_calls op))%nat /\
  length (TRANSACTIONS st') =
    (length (TRANSACTIONS st) + length (op_calls op))%nat /\
  length (op_calls op) =
    match op with OpSubmit _ _ => 1%nat | OpDemo _ => 3%nat | _ => 0%nat end.
Proof.
  intros ->%exec_settle. split_and!.
  - rewrite settle_MESSAGES. by eexists.
  - rewrite settle_TRANSACTIONS. by eexists.
  - apply settle_MESSAGES_length.
  - apply settle_TRANSACTIONS_length.
  - by destruct op.
Qed.

Lemma logs_append_only_witness :
  exists st',
    exec (OpDemo (fun _ => env_a)) init_state = Ok st' /\
    MESSAGES init_state `prefix_of` MESSAGES st' /\
    length (MESSAGES st') = (length (MESSAGES init_state) + 3)%nat /\
    length (TRANSACTIONS st') = (length (TRANSACTIONS init_state) + 3)%nat.
Proof.
  assert (exec (OpDemo (fun _ => env_a)) init_state =
          Ok (settle (op_calls (OpDemo (fun _ => env_a))) init_state))
    as Hexec by (vm_compute; reflexivity).
  eexists. split; [exact Hexec|].
  destruct (logs_append_only _ _ _ Hexec) as (Hm & _ & Hlm & Hlt & _).
  by split_and!.
Defined.

(** ** What no operation changes in an agent record *)

Lemma frame_same_identity (l l' : list Agent.t) :
  Agent.frame <$> l' = Agent.frame <$> l -> Forall2 same_identity l l'.
Proof.
  revert l'. induction l as [|a l IH]; intros [|a' l'] H; try done.
  apply (inj2 cons) in H as [Hframe Hrest]. constructor; [|by apply IH].
  unfold same_identity. split_and!.
  - by apply (f_equal (fun fr => fr.1.1)) in Hframe.
  - by apply (f_equal (fun fr => fr.2.1.1.1.1)) in Hframe.
  - by apply (f_equal (fun fr => fr.1.2)) in Hframe.
  - by apply (f_equal (fun fr => fr.2.1.1.1.2)) in Hframe.
  - by apply (f_equal (fun fr => fr.2.1.1.2)) in Hframe.
  - by apply (f_equal (fun fr => fr.2.1.2)) in Hframe.
  - by apply (f_equal (fun fr => fr.2.2)) in Hframe.
Qed.

(** X6: every operation that succeeds, from any state, keeps the registry
    the same length and leaves each agent's id, type, name, skills, balance,
    status and registration time as they were: only the tasks-completed and
    earnings fields are ever assigned. *)
Theorem agent_identity_unchanged (op : Op) (st st' : State) :
  exec op st = Ok st' ->
  length (AGENTS st') = length (AGENTS st) /\
  Forall2 same_identity (AGENTS st) (AGENTS st').
Proof.
  intros ->%exec_settle. split.
  - apply settle_length.
  - apply frame_same_identity, settle_frame.
Qed.

Lemma agent_identity_unchanged_witness :
  exists st',
    exec (OpSubmit env_a req_negative) init_state = Ok st' /\
    length (AGENTS st') = length (AGENTS init_state) /\
    Forall2 same_identity (AGENTS init_state) (AGENTS st').
Proof.
  assert (exec (OpSubmit env_a req_negative) init_state =
          Ok (submitted_state env_a req_negative init_state))
    as Hexec by (vm_compute; reflexivity).
  eexists. split; [exact Hexec|].
  exact (agent_identity_unchanged _ _ _ Hexec).
Defined.

(** ** Invariants of the reachable states *)

Lemma submitted_message_tx_id (calls : list (Env * TaskRequest.t)) :
  Message.tx_id <$> ((fun c => submitted_message c.1 c.2) <$> calls) =
  Transaction.tx_id <$> ((fun c => submitted_transaction c.1 c.2) <$> calls).
Proof. by rewrite <- !list_fmap_compose. Qed.

(** X7: in every reachable state the two logs are aligned with each other
    and with the completed-tasks counter: they have the same length, the
    i-th message and the i-th transaction carry the same reference id, and
    the counter is 795 plus that length (798 for the three seeded
    entries). *)
Theorem logs_aligned (st : State) :
  reachable st ->
  length (MESSAGES st) = length (TRANSACTIONS st) /\
  Message.tx_id <$> MESSAGES st = Transaction.tx_id <$> TRANSACTIONS st /\
  _tasks_completed st = 795 + Z.of_nat (length (TRANSACTIONS st)).
Proof.
  induction 1 as [|op st st' _ (IHlen & IHids & IHcount) Hexec].
  - by split_and!.
  - apply exec_settle in Hexec as ->. split_and!.
    + by rewrite settle_MESSAGES_length, settle_TRANSACTIONS_length, IHlen.
    + by rewrite settle_MESSAGES, settle_TRANSACTIONS, !fmap_app, IHids,
        submitted_message_tx_id.
    + rewrite settle_tasks_completed, settle_TRANSACTIONS_length, IHcount. lia.
Qed.

Lemma logs_aligned_witness :
  length (MESSAGES init_state) = length (TRANSACTIONS init_state) /\
  Message.tx_id <$> MESSAGES init_state =
    Transaction.tx_id <$> TRANSACTIONS init_state /\
  _tasks_completed init_state =
    795 + Z.of_nat (length (TRANSACTIONS init_state)).
Proof. apply (logs_aligned init_state). exact reach_init. Defined.

Lemma zsum_from (xs : list Z) (acc : Z) :
  fold_left Z.add xs acc = acc + zsum xs.
Proof.
  unfold zsum. revert acc. induction xs as [|x xs IH]; intros acc.
  - cbn. lia.
  - cbn [fold_left]. rewrite (IH (acc + x)), (IH (0 + x)). lia.
Qed.

Lemma zsum_cons (x : Z) (xs : list Z) : zsum (x :: xs) = x + zsum xs.
Proof. unfold zsum at 1. cbn [fold_left]. rewrite zsum_from. lia. Qed.

Lemma zsum_credit (budget : float) (i : nat) (l : list Agent.t) :
  (i < length l)%nat ->
  zsum (Agent.tasks_completed <$> alter (credit budget) i l) =
  zsum (Agent.tasks_completed <$> l) + 1.
Proof.
  revert i. induction l as [|a l IH]; intros i Hi; [cbn in Hi; lia|].
  destruct i as [|i]; csimpl; rewrite !zsum_cons.
  - cbn. lia.
  - rewrite IH by (cbn in Hi; lia). lia.
Qed.

Lemma settle_zsum (calls : list (Env * TaskRequest.t)) (st : State) :
  (2 < length (AGENTS st))%nat ->
  zsum (Agent.tasks_completed <$> AGENTS (settle calls st)) =
  zsum (Agent.tasks_completed <$> AGENTS st) + Z.of_nat (length calls).
Proof.
  revert st. induction calls as [|c calls IH]; intros st Hlen.
  - cbn [settle foldl length]. lia.
  - rewrite settle_cons, IH by (by rewrite submitted_state_length).
    cbn [submitted_state AGENTS length].
    rewrite zsum_credit by (by apply worker_ref_lt). lia.
Qed.

(** X8: in every reachable state the cumulative completed-tasks counter
    equals the sum of the agents' own tasks-completed counters: each
    submission adds one to the global counter and one to exactly one
    agent. *)
Theorem tasks_completed_is_agent_sum (st : State) :
  reachable st ->
  _tasks_completed st = zsum (Agent.tasks_completed <$> AGENTS st).
Proof.
  induction 1 as [|op st st' Hreach IH Hexec]; [reflexivity|].
  apply exec_settle in Hexec as ->.
  rewrite settle_tasks_completed, settle_zsum, IH; [done|].
  rewrite (reachable_length st Hreach). lia.
Qed.

Lemma tasks_completed_is_agent_sum_witness :
  _tasks_completed init_state =
  zsum (Agent.tasks_completed <$> AGENTS init_state).
Proof. apply (tasks_completed_is_agent_sum init_state). exact reach_init. Defined.

(** ** Which agents a submission can reach *)

Lemma reachable_worker_ref (st : State) (task_type : string) :
  reachable st ->
  let w := worker_ref (AGENTS st) (assigned_worker_id task_type) in
  w = 2%nat \/ w = 3%nat \/ w = 4%nat.
Proof.
  intros Hreach w. subst w.
  rewrite (worker_ref_frame _ _ _ (reachable_frame st Hreach)).
  destruct (assigned_worker_id_cases task_type) as [-> | [-> | ->]]; auto.
Qed.

Lemma credited_other (agents : list Agent.t)
    (calls : list (Env * TaskRequest.t)) (i : nat) (a : Agent.t) :
  Forall (fun c => worker_ref agents
                     (assigned_worker_id (TaskRequest.task_type c.2)) <> i)
         calls ->
  credited agents calls i a = a.
Proof.
  induction 1 as [|c calls Hc _ IH]; [done|].
  by rewrite credited_cons, decide_False.
Qed.

Lemma busy_count_same_identity (l l' : list Agent.t) :
  Forall2 same_identity l l' ->
  length (filter (fun a => Agent.status a = "busy") l') =
  length (filter (fun a => Agent.status a = "busy") l).
Proof.
  induction 1 as [|a a' l l' Ha _ IH]; [done|].
  destruct Ha as (_ & _ & _ & _ & _ & Hstatus & _).
  rewrite !filter_cons, Hstatus. case_decide; cbn [length]; by rewrite IH.
Qed.

(** X9: in every reachable state the registry, broker and settlement agents
    (positions 0, 1 and 5) still hold exactly their seeded records: no
    submission is ever credited to them.  Since no status is ever assigned,
    the snapshot always reports 2 busy agents out of 6. *)
Theorem non_workers_never_credited (now : string) (st : State) :
  reachable st ->
  AGENTS st !! 0%nat = AGENTS_seed !! 0%nat /\
  AGENTS st !! 1%nat = AGENTS_seed !! 1%nat /\
  AGENTS st !! 5%nat = AGENTS_seed !! 5%nat /\
  exists snap,
    _economy_snapshot now st = Ok (snap, st) /\
    Stats.active_agents (Snapshot.stats snap) = 2 /\
    Stats.total_agents (Snapshot.stats snap) = 6.
Proof.
  intros Hreach.
  assert (forall i, i <> 2%nat -> i <> 3%nat -> i <> 4%nat ->
                    AGENTS st !! i = AGENTS_seed !! i) as Hfixed.
  { induction Hreach as [|op st st' Hreach IH Hexec]; [done|].
    intros i H2 H3 H4. apply exec_settle in Hexec as ->.
    rewrite settle_lookup, <- (IH i H2 H3 H4).
    destruct (AGENTS st !! i) as [a|]; [|done].
    cbn [fmap option_fmap option_map]. f_equal.
    apply credited_other, Forall_forall. intros c _ Hw.
    destruct (reachable_worker_ref st (TaskRequest.task_type c.2) Hreach)
      as [? | [? | ?]]; congruence. }
  split_and!; try (by apply Hfixed).
  eexists. split; [apply _economy_snapshot_run|].
  cbn [Snapshot.stats Stats.active_agents Stats.total_agents]. split.
  - rewrite (busy_count_same_identity AGENTS_seed (AGENTS st)); [done|].
    apply frame_same_identity, reachable_frame, Hreach.
  - by rewrite (reachable_length st Hreach).
Qed.

Lemma non_workers_never_credited_witness :
  AGENTS init_state !! 0%nat = AGENTS_seed !! 0%nat /\
  AGENTS init_state !! 1%nat = AGENTS_seed !! 1%nat /\
  AGENTS init_state !! 5%nat = AGENTS_seed !! 5%nat /\
  exists snap,
    _economy_snapshot "2026-07-02T13:46:40+00:00" init_state
      = Ok (snap, init_state) /\
    Stats.active_agents (Snapshot.stats snap) = 2 /\
    Stats.total_agents (Snapshot.stats snap) = 6.
Proof.
  apply (non_workers_never_credited "2026-07-02T13:46:40+00:00" init_state).
  exact reach_init.
Defined.

(** ** Reference ids and the clock *)

(** X10: two successful submissions, in whatever states, get the same
    transaction reference id exactly when their clock readings are the same
    whole second: nothing else enters the id. *)
Theorem tx_id_equal_iff_same_second
    (env1 env2 : Env) (req1 req2 : TaskRequest.t) (st1 st2 st1' st2' : State)
    (r1 r2 : Receipt.t) :
  submit_task env1 req1 st1 = Ok (r1, st1') ->
  submit_task env2 req2 st2 = Ok (r2, st2') ->
  Receipt.tx_id r1 = Receipt.tx_id r2 <-> clock env1 = clock env2.
Proof.
  intros H1%submit_task_tx_id H2%submit_task_tx_id. rewrite H1, H2. split.
  - apply tx_id_of_inj.
  - by intros ->.
Qed.

Lemma tx_id_equal_iff_same_second_witness :
  exists r1 r2 st1' st2',
    submit_task env_a req_fox init_state = Ok (r1, st1') /\
    submit_task env_b req_review init_state = Ok (r2, st2') /\
    (Receipt.tx_id r1 = Receipt.tx_id r2 <-> clock env_a = clock env_b).
Proof.
  destruct (submit_task_run env_a req_fox init_state) as (a1 & _ & H1).
  { cbn. lia. }
  destruct (submit_task_run env_b req_review init_state) as (a2 & _ & H2).
  { cbn. lia. }
  eexists _, _, _, _. split; [exact H1|]. split; [exact H2|].
  exact (tx_id_equal_iff_same_second _ _ _ _ _ _ _ _ _ _ H1 H2).
Defined.

(** ** What every logged record satisfies *)

Lemma assigned_worker_id_worker (task_type : string) :
  assigned_worker_id task_type ∈ worker_ids.
Proof.
  unfold worker_ids.
  destruct (assigned_worker_id_cases task_type) as [-> | [-> | ->]].
  - by left.
  - right. by left.
  - right. right. by left.
Qed.

(** X11: in every reachable state, every logged transaction, seeded or
    appended, is marked as simulated, has a duration in [280, 650], names
    one of the three worker agents, and has the reference id derived from
    its own timestamp; every logged message was sent by a registered
    agent. *)
Theorem logged_records_well_formed (st : State) :
  reachable st ->
  Forall (fun t =>
            Transaction.mock t = true /\
            280 <= Transaction.duration_ms t <= 650 /\
            Transaction.worker_id t ∈ worker_ids /\
            Transaction.tx_id t = tx_id_of (Transaction.timestamp t))
         (TRANSACTIONS st) /\
  Forall (fun m => Message.sender m ∈ Agent.agent_id <$> AGENTS st)
         (MESSAGES st).
Proof.
  induction 1 as [|op st st' Hreach [IHt IHm] Hexec].
  - split; repeat constructor; by vm_compute.
  - apply exec_settle in Hexec as ->. split.
    + rewrite settle_TRANSACTIONS. apply Forall_app. split; [done|].
      apply Forall_fmap, Forall_forall. intros c _. cbn. split_and!.
      * done.
      * by apply randint_bounds.
      * by apply randint_bounds.
      * apply assigned_worker_id_worker.
      * done.
    + rewrite (frame_agent_id _ _ (settle_frame _ st)), settle_MESSAGES.
      apply Forall_app. split; [done|].
      apply Forall_fmap, Forall_forall. intros c _. cbn.
      rewrite (reachable_agent_ids st Hreach). right. by left.
Qed.

Lemma logged_records_well_formed_witness :
  Forall (fun t =>
            Transaction.mock t = true /\
            280 <= Transaction.duration_ms t <= 650 /\
            Transaction.worker_id t ∈ worker_ids /\
            Transaction.tx_id t = tx_id_of (Transaction.timestamp t))
         (TRANSACTIONS init_state) /\
  Forall (fun m => Message.sender m ∈ Agent.agent_id <$> AGENTS init_state)
         (MESSAGES init_state).
Proof. apply (logged_records_well_formed init_state). exact reach_init. Defined.

(** ** Limits that are not positive *)

(** X12: for a limit [L <= 0] the messages, feed and transactions queries
    return the log without its first [-L] entries, oldest first, and leave
    the state unchanged: the whole log for [L = 0], and nothing once [-L]
    reaches the length of the log. *)
Theorem nonpositive_limit_drops_oldest (limit : Z) (st : State) :
  limit <= 0 ->
  get_messages limit st =
    Ok ((drop (Z.to_nat (- limit)) (MESSAGES st),
         Z.of_nat (length (MESSAGES st))), st) /\
  get_feed limit st =
    Ok ((drop (Z.to_nat (- limit)) (MESSAGES st), "0.0.demo",
         Z.of_nat (length (MESSAGES st))), st) /\
  get_transactions limit st =
    Ok ((drop (Z.to_nat (- limit)) (TRANSACTIONS st),
         Z.of_nat (length (TRANSACTIONS st))), st) /\
  (limit = 0 -> drop (Z.to_nat (- limit)) (MESSAGES st) = MESSAGES st) /\
  (Z.of_nat (length (MESSAGES st)) <= - limit ->
   drop (Z.to_nat (- limit)) (MESSAGES st) = []).
Proof.
  intros Hlimit.
  assert (forall A (xs : list A),
            last_slice limit xs = drop (Z.to_nat (- limit)) xs) as Hslice.
  { intros A xs. destruct (Z.eq_dec limit 0) as [->|].
    - by rewrite last_slice_zero.
    - apply last_slice_neg. lia. }
  split_and!.
  - by rewrite get_messages_run, Hslice.
  - unfold get_feed, mbind, M_bind, gets, mret, M_ret. by rewrite Hslice.
  - by rewrite get_transactions_run, Hslice.
  - by intros ->.
  - intros Hall. apply drop_ge. lia.
Qed.

Lemma nonpositive_limit_drops_oldest_witness :
  get_messages (-2) init_state =
    Ok ((drop (Z.to_nat (- -2)) (MESSAGES init_state),
         Z.of_nat (length (MESSAGES init_state))), init_state) /\
  get_feed (-2) init_state =
    Ok ((drop (Z.to_nat (- -2)) (MESSAGES init_state), "0.0.demo",
         Z.of_nat (length (MESSAGES init_state))), init_state).
Proof.
  destruct (nonpositive_limit_drops_oldest (-2) init_state) as (H1 & H2 & _).
  - lia.
  - by split.
Defined.

(** ** The size of the snapshot and the legacy stats *)

(** X13: a snapshot carries the whole registry, the last [min(K, 50)] of
    the [K] logged messages and the last [min(T, 20)] of the [T] logged
    transactions: never more than 50 and 20 entries, and the whole log
    while it is that short. *)
Theorem snapshot_view_sizes (now : string) (st : State) :
  exists snap,
    _economy_snapshot now st = Ok (snap, st) /\
    length (Snapshot.agents snap) = length (AGENTS st) /\
    length (Snapshot.messages snap) = (length (MESSAGES st) `min` 50)%nat /\
    length (Snapshot.transactions snap) =
      (length (TRANSACTIONS st) `min` 20)%nat /\
    ((length (MESSAGES st) <= 50)%nat ->
     Snapshot.messages snap = MESSAGES st) /\
    ((length (TRANSACTIONS st) <= 20)%nat ->
     Snapshot.transactions snap = TRANSACTIONS st).
Proof.
  eexists. split; [apply _economy_snapshot_run|].
  cbn [Snapshot.agents Snapshot.messages Snapshot.transactions].
  split_and!.
  - done.
  - pose proof (last_slice_pos_length 50 (MESSAGES st)). lia.
  - pose proof (last_slice_pos_length 20 (TRANSACTIONS st)). lia.
  - intros Hlen. apply last_slice_all. lia.
  - intros Hlen. apply last_slice_all. lia.
Qed.

(** X14: the legacy stats are the stats of the snapshot built in the same
    state: the same agent count, the completed-tasks counter reported both
    as total and as completed tasks, the same rounded settled value, and
    zero pending and failed tasks; [hcs_messages] counts the whole message
    log, which the snapshot's message view may fall short of. *)
Theorem legacy_stats_match_snapshot (now : string) (st : State) :
  exists ls snap,
    get_stats now st = Ok (ls, st) /\
    _economy_snapshot now st = Ok (snap, st) /\
    LegacyStats.total_agents ls = Stats.total_agents (Snapshot.stats snap) /\
    LegacyStats.total_tasks ls = _tasks_completed st /\
    LegacyStats.completed_tasks ls = LegacyStats.total_tasks ls /\
    LegacyStats.pending_tasks ls = 0 /\
    LegacyStats.failed_tasks ls = 0 /\
    LegacyStats.total_hbar_settled ls =
      Stats.total_hbar_settled (Snapshot.stats snap) /\
    LegacyStats.total_hbar_settled ls = round4 (_total_hbar_settled st) /\
    LegacyStats.hcs_messages ls = Z.of_nat (length (MESSAGES st)) /\
    Z.of_nat (length (Snapshot.messages snap)) <= LegacyStats.hcs_messages ls.
Proof.
  eexists _, _. split; [|split; [apply _economy_snapshot_run|]].
  - unfold get_stats, mbind, M_bind at 1. rewrite _economy_snapshot_run.
    reflexivity.
  - cbn. split_and!; try done.
    pose proof (last_slice_pos_length 50 (MESSAGES st)). lia.
Qed.

(** ** The synthesized result text *)

Lemma length_lit (s : string) : length (lit s) = String.length s.
Proof.
  unfold lit. rewrite length_fmap.
  induction s as [|c s IH]; [done|]. cbn. by rewrite IH.
Qed.

Lemma result_map_lookup (env : Env) (payload : text) (t : string) :
  result_map env payload !! t =
  if decide (t = "summarize") then
    Some (lit "Summary: " ++ prefix 120 payload ++ [ellipsis] ++
          lit " [AI condensed to 3 key points via HCS-verified consensus]")
  else if decide (t = "review") then
    Some (lit "Code Review: 0 critical issues detected. 2 style suggestions. Reentrancy pattern flagged for: "
          ++ prefix 80 payload)
  else if decide (t = "analyze") then
    Some (lit "Analysis complete: Dataset shows upward trend. Mean=" ++
          lit (pretty (randint 100 500 (draw_mean env))) ++ lit ", " ++
          [sigma] ++ lit "=" ++
          lit (pretty (randint 10 50 (draw_sigma env))) ++
          lit ". Confidence: 94%")
  else None.
Proof.
  unfold result_map.
  destruct (decide (t = "summarize")) as [->|Hs].
  { by rewrite lookup_insert_eq. }
  rewrite lookup_insert_ne by done.
  destruct (decide (t = "review")) as [->|Hr].
  { by rewrite lookup_insert_eq. }
  rewrite lookup_insert_ne by done.
  destruct (decide (t = "analyze")) as [->|Ha].
  { by rewrite lookup_singleton_eq. }
  by rewrite lookup_singleton_ne.
Qed.

Lemma pretty_length_range (lo hi : Z) (n : nat) (z : Z) :
  forallb (fun k => Nat.eqb (String.length (pretty (lo + Z.of_nat k))) n)
          (seq 0 (Z.to_nat (hi - lo + 1))) = true ->
  lo <= z <= hi -> String.length (pretty z) = n.
Proof.
  intros Hall Hz. rewrite forallb_forall in Hall.
  specialize (Hall (Z.to_nat (z - lo))).
  rewrite Nat.eqb_eq in Hall.
  replace (lo + Z.of_nat (Z.to_nat (z - lo))) with z in Hall by lia.
  apply Hall, in_seq. lia.
Qed.

Lemma pretty_randint_mean (draw : Z) :
  String.length (pretty (randint 100 500 draw)) = 3%nat.
Proof.
  apply (pretty_length_range 100 500); [by vm_compute|].
  by apply randint_bounds.
Qed.

Lemma pretty_randint_sigma (draw : Z) :
  String.length (pretty (randint 10 50 draw)) = 2%nat.
Proof.
  apply (pretty_length_range 10 50); [by vm_compute|].
  by apply randint_bounds.
Qed.

(** X15: the result text has a length fixed by the task type and the
    payload length [n]: [68 + min(n, 120)] characters for ["summarize"],
    [94 + min(n, 80)] for ["review"], exactly 78 for ["analyze"] whatever
    the payload and the random draws, and [16 + min(n, 100)] for every
    other task type; so it never exceeds 188 characters. *)
Theorem result_text_length (env : Env) (req : TaskRequest.t) :
  let t := TaskRequest.task_type req in
  let n := length (TaskRequest.payload req) in
  length (result_text env req) =
    (if decide (t = "summarize") then 68 + n `min` 120
     else if decide (t = "review") then 94 + n `min` 80
     else if decide (t = "analyze") then 78
     else 16 + n `min` 100)%nat /\
  (length (result_text env req) <= 188)%nat.
Proof.
  intros t n.
  assert (length (result_text env req) =
          (if decide (t = "summarize") then 68 + n `min` 120
           else if decide (t = "review") then 94 + n `min` 80
           else if decide (t = "analyze") then 78
           else 16 + n `min` 100)%nat) as Hlen.
  { unfold result_text, dict_get. rewrite result_map_lookup. fold t.
    repeat case_decide; cbn [from_option]; unfold id, prefix;
      rewrite ?length_app, ?length_take, ?length_lit,
        ?pretty_randint_mean, ?pretty_randint_sigma;
      cbn [String.length length]; fold n; lia. }
  split; [exact Hlen|]. rewrite Hlen. repeat case_decide; lia.
Qed.

(** X16: only ["summarize"], ["review"] and ["analyze"] have a result
    template.  Every other task type, the routed skills ["tldr"],
    ["abstract"], ["lint"], ["security-scan"], ["stats"] and ["chart"]
    included, gets ["Task completed: "] followed by the first 100
    characters of the payload, while still being routed by the skill
    map. *)
Theorem result_text_generic (env : Env) (req : TaskRequest.t) :
  TaskRequest.task_type req ∉ ["summarize"; "review"; "analyze"] ->
  result_text env req =
    lit "Task completed: " ++ take 100 (TaskRequest.payload req).
Proof.
  intros Hnot. unfold result_text, dict_get. rewrite result_map_lookup.
  rewrite !decide_False; [done|..]; intros Heq; apply Hnot; rewrite Heq.
  - do 2 right. by left.
  - right. by left.
  - by left.
Qed.

Lemma result_text_generic_witness :
  result_text env_a req_tldr =
    lit "Task completed: " ++ take 100 (TaskRequest.payload req_tldr) /\
  assigned_worker_id (TaskRequest.task_type req_tldr) = "worker-summarizer".
Proof.
  split; [|reflexivity].
  apply (result_text_generic env_a req_tldr).
  intros Hin. repeat (apply elem_of_cons in Hin as [Hin|Hin]; [discriminate|]).
  by apply elem_of_nil in Hin.
Defined.

(** ** What the demo cycle does to the registry *)

Lemma demo_worker_refs (st : State) :
  reachable st ->
  worker_ref (AGENTS st) (assigned_worker_id "summarize") = 2%nat /\
  worker_ref (AGENTS st) (assigned_worker_id "review") = 3%nat /\
  worker_ref (AGENTS st) (assigned_worker_id "analyze") = 4%nat.
Proof.
  intros Hframe%reachable_frame.
  by rewrite !(worker_ref_frame _ _ _ Hframe).
Qed.

Lemma credit_credited_once (budget : float) (a : Agent.t) :
  credited_once budget a (credit budget a).
Proof. by repeat split. Qed.

(** X17: from every reachable state the demo cycle credits each of the
    three workers exactly once, the summarizer with 0.5, the code reviewer
    with 1.0 and the data analyst with 0.75 (tasks-completed plus one,
    earnings replaced by the rounded sum), leaves the registry, broker and
    settlement records untouched, and appends three transactions naming the
    three workers in that order. *)
Theorem run_demo_credits_each_worker (env : nat -> Env) (st : State) :
  reachable st ->
  exists d st' s r a s' r' a' txs,
    run_demo env st = Ok (d, st') /\
    AGENTS st !! 2%nat = Some s /\ AGENTS st' !! 2%nat = Some s' /\
    AGENTS st !! 3%nat = Some r /\ AGENTS st' !! 3%nat = Some r' /\
    AGENTS st !! 4%nat = Some a /\ AGENTS st' !! 4%nat = Some a' /\
    credited_once 0.5 s s' /\
    credited_once 1.0 r r' /\
    credited_once 0.75 a a' /\
    AGENTS st' !! 0%nat = AGENTS st !! 0%nat /\
    AGENTS st' !! 1%nat = AGENTS st !! 1%nat /\
    AGENTS st' !! 5%nat = AGENTS st !! 5%nat /\
    TRANSACTIONS st' = TRANSACTIONS st ++ txs /\
    Transaction.worker_id <$> txs = worker_ids /\
    Transaction.amount_hbar <$> txs = [0.5; 1.0; 0.75]%float.
Proof.
  intros Hreach.
  destruct (run_demo_run env st) as (rs & Hrun & _).
  { rewrite (reachable_length st Hreach). lia. }
  destruct (demo_worker_refs st Hreach) as (Hs & Hr & Ha).
  assert (forall i x,
            credited (AGENTS st) (op_calls (OpDemo env)) i x =
            if decide (i = 2%nat) then credit 0.5 x
            else if decide (i = 3%nat) then credit 1.0 x
            else if decide (i = 4%nat) then credit 0.75 x else x) as Hcred.
  { intros i x. cbn [op_calls demo_tasks imap].
    rewrite !credited_cons. unfold credited, compose.
    cbn [foldl snd TaskRequest.task_type TaskRequest.budget_hbar].
    rewrite Hs, Hr, Ha.
    repeat case_decide; try lia; reflexivity. }
  assert (forall i, is_Some (AGENTS_seed !! i) -> is_Some (AGENTS st !! i))
    as Hsome.
  { intros i Hi. apply lookup_lt_is_Some.
    rewrite (reachable_length st Hreach).
    by apply lookup_lt_is_Some in Hi. }
  destruct (Hsome 2%nat) as [s Hs2]; [by eexists|].
  destruct (Hsome 3%nat) as [r Hr3]; [by eexists|].
  destruct (Hsome 4%nat) as [a Ha4]; [by eexists|].
  eexists _, _, s, r, a, (credit 0.5 s), (credit 1.0 r), (credit 0.75 a),
    ((fun c => submitted_transaction c.1 c.2) <$> op_calls (OpDemo env)).
  split; [exact Hrun|].
  rewrite !settle_lookup, Hs2, Hr3, Ha4.
  cbn [fmap option_fmap option_map].
  split_and!;
    first [ done
          | by rewrite Hcred
          | apply credit_credited_once
          | apply settle_TRANSACTIONS
          | match goal with
            | |- context [AGENTS st !! ?i] =>
                destruct (AGENTS st !! i);
                  [cbn [fmap option_fmap option_map]; by rewrite Hcred | done]
            end ].
Qed.

Lemma run_demo_credits_each_worker_witness :
  exists d st' s r a s' r' a' txs,
    run_demo (fun _ => env_a) init_state = Ok (d, st') /\
    AGENTS init_state !! 2%nat = Some s /\ AGENTS st' !! 2%nat = Some s' /\
    AGENTS init_state !! 3%nat = Some r /\ AGENTS st' !! 3%nat = Some r' /\
    AGENTS init_state !! 4%nat = Some a /\ AGENTS st' !! 4%nat = Some a' /\
    credited_once 0.5 s s' /\
    credited_once 1.0 r r' /\
    credited_once 0.75 a a' /\
    AGENTS st' !! 0%nat = AGENTS init_state !! 0%nat /\
    AGENTS st' !! 1%nat = AGENTS init_state !! 1%nat /\
    AGENTS st' !! 5%nat = AGENTS init_state !! 5%nat /\
    TRANSACTIONS st' = TRANSACTIONS init_state ++ txs /\
    Transaction.worker_id <$> txs = worker_ids /\
    Transaction.amount_hbar <$> txs = [0.5; 1.0; 0.75]%float.
Proof.
  apply (run_demo_credits_each_worker (fun _ => env_a) init_state).
  exact reach_init.
Defined.

(** ** The agent search *)

(** X18: the worker is the first agent in registry order whose id is the
    assigned one: if the agent at position [i] has the assigned id and no
    earlier agent has it, a submission updates the record at position [i],
    leaves every other position as it was, and puts that agent's name on
    the receipt. *)
Theorem submit_task_credits_first_match (env : Env) (req : TaskRequest.t)
    (st : State) (i : nat) (a : Agent.t) :
  (2 < length (AGENTS st))%nat ->
  AGENTS st !! i = Some a ->
  Agent.agent_id a = assigned_worker_id (TaskRequest.task_type req) ->
  (forall j b, (j < i)%nat -> AGENTS st !! j = Some b ->
               Agent.agent_id b <>
               assigned_worker_id (TaskRequest.task_type req)) ->
  exists r st',
    submit_task env req st = Ok (r, st') /\
    Receipt.assigned_to r = Agent.name a /\
    AGENTS st' !! i = Some (credit (TaskRequest.budget_hbar req) a) /\
    forall j, j <> i -> AGENTS st' !! j = AGENTS st !! j.
Proof.
  intros Hlen Hi Hid Hfirst.
  assert (worker_ref (AGENTS st)
            (assigned_worker_id (TaskRequest.task_type req)) = i) as Hw.
  { unfold worker_ref.
    rewrite (proj2 (list_find_Some _ (AGENTS st) i a)); [done|].
    split_and!; [done..|]. intros j b Hj Hlt. by apply (Hfirst j). }
  destruct (submit_task_run env req st Hlen) as (a' & Ha' & Hrun).
  rewrite Hw, Hi in Ha'. injection Ha' as <-.
  eexists _, _. split; [exact Hrun|].
  cbn [submitted_state AGENTS submitted_receipt Receipt.assigned_to].
  rewrite Hw. split_and!.
  - done.
  - by rewrite list_lookup_alter_eq, Hi.
  - intros j Hj. by rewrite list_lookup_alter_ne.
Qed.

Lemma submit_task_credits_first_match_witness :
  exists a,
    AGENTS init_state !! 3%nat = Some a /\
    exists r st',
    submit_task env_a req_review init_state = Ok (r, st') /\
    Receipt.assigned_to r = Agent.name a /\
    AGENTS st' !! 3%nat =
      Some (credit (TaskRequest.budget_hbar req_review) a) /\
    forall j, j <> 3%nat -> AGENTS st' !! j = AGENTS init_state !! j.
Proof.
  exists (Agent.mk "worker-code-reviewer" "worker" "Code Reviewer Worker"
            ["review"; "lint"; "security-scan"] 31.0 67 67.0 "idle"
            "2026-02-24T10:00:00Z").
  split; [reflexivity|].
  apply (submit_task_credits_first_match env_a req_review init_state 3%nat).
  - cbn. lia.
  - reflexivity.
  - reflexivity.
  - intros j b Hlt Hj. destruct j as [|[|[|j]]]; [..|lia];
      cbn in Hj; injection Hj as <-; discriminate.
Defined.

(** ** Agent counts across the handlers *)

(** X19: in one state the health check, the agent listing, the snapshot and
    the legacy stats all report the same number of agents, the length of
    the registry, and none of them changes the state; in every reachable
    state that number is 6. *)
Theorem agent_count_consistent (network now : string) (st : State) :
  reachable st ->
  exists h agents count snap ls,
    health network now st = Ok (h, st) /\
    list_agents st = Ok ((agents, count), st) /\
    _economy_snapshot now st = Ok (snap, st) /\
    get_stats now st = Ok (ls, st) /\
    agents = AGENTS st /\
    Health.agents_registered h = 6 /\
    count = 6 /\
    Stats.total_agents (Snapshot.stats snap) = 6 /\
    LegacyStats.total_agents ls = 6.
Proof.
  intros Hlen%reachable_length.
  eexists _, _, _, _, _.
  split; [reflexivity|]. split; [reflexivity|].
  split; [apply _economy_snapshot_run|].
  split.
  { unfold get_stats, mbind, M_bind at 1. rewrite _economy_snapshot_run.
    reflexivity. }
  split; [reflexivity|]. cbn. by rewrite Hlen.
Qed.

Lemma agent_count_consistent_witness :
  exists h agents count snap ls,
    health "testnet" "2026-07-02T13:46:40+00:00" init_state
      = Ok (h, init_state) /\
    list_agents init_state = Ok ((agents, count), init_state) /\
    _economy_snapshot "2026-07-02T13:46:40+00:00" init_state
      = Ok (snap, init_state) /\
    get_stats "2026-07-02T13:46:40+00:00" init_state = Ok (ls, init_state) /\
    agents = AGENTS init_state /\
    Health.agents_registered h = 6 /\
    count = 6 /\
    Stats.total_agents (Snapshot.stats snap) = 6 /\
    LegacyStats.total_agents ls = 6.
Proof.
  apply (agent_count_consistent "testnet" "2026-07-02T13:46:40+00:00"
           init_state).
  exact reach_init.
Defined.
